(** * atem-connection: the DVE keyer command pair and the Atem front object

    A shallow embedding of
    - [src/commands/MixEffects/Key/MixEffectKeyDVECommand.ts]: the setter
      [MixEffectKeyDVECommand] (wire name CKDV) with its [serialize], and the
      notifier [MixEffectKeyDVEUpdateCommand] (wire name KeDV) with its
      [deserialize] and [applyToState];
    - [src/atem.ts]: the [Atem] class, its sent-queue, [sendCommand],
      [_resolveCommand], [_rejectCommand], [_mutateState], the socket event
      handlers of the constructor and [setSuperSourceProperties].

    JavaScript numbers are integers of [Z] here (every number these functions
    touch is an integer read from, or written to, a byte buffer); a Node
    [Buffer] is a list of bytes; an exception is the [Throw] of a small error
    monad; objects that are shared and mutated (command objects, promises)
    live in explicit stores. *)

From Stdlib Require Import ZArith Lia Strings.Byte.
From stdpp Require Import base option list strings gmap pretty.

Local Open Scope Z_scope.

(** ** Exceptions *)

Inductive JsError : Type :=
| RangeError   (* an offset outside the buffer: a RangeError on every Node *)
| ValueOutOfBounds
               (* a value outside the range of the field written: Node 6 and
                  8 throw a TypeError for it, Node 10 and later a RangeError
                  (ERR_OUT_OF_RANGE); the model keeps it apart from both *)
| TypeError    (* calling something that is not a function *)
| EnumError.   (* an enumerated field outside its closed set *)

Inductive result (A : Type) : Type :=
| Ok (a : A)
| Throw (e : JsError).
Arguments Ok {A} a.
Arguments Throw {A} e.

#[global] Instance result_ret : MRet result := fun _ a => Ok a.
#[global] Instance result_bind : MBind result := fun _ _ f m =>
  match m with
  | Ok a => f a
  | Throw e => Throw e
  end.

(** ** Node's Buffer *)

Module Buffer.

(** The number a byte holds, 0..255. *)
Definition u8 (b : byte) : Z := Z.of_N (Byte.to_N b).

(** The byte that holds [z] modulo 256. *)
Definition byte_of (z : Z) : byte :=
  default "000"%byte (Byte.of_N (Z.to_N (z mod 256))).

(** [Buffer.alloc(n)]: [n] zero bytes. *)
Definition alloc (n : nat) : list byte := replicate n "000"%byte.

(** Big-endian value of a run of bytes. *)
Definition be_value (bs : list byte) : Z :=
  fold_left (fun acc b => acc * 256 + u8 b) bs 0.

(** The [n] low-order bytes of [v], most significant first (two's complement
    for a negative [v], since [/] rounds down). *)
Fixpoint be_bytes (n : nat) (v : Z) : list byte :=
  match n with
  | O => []
  | S k => byte_of (v / 256 ^ Z.of_nat k) :: be_bytes k v
  end.

(** The [n] bytes at [off]; a read that leaves the buffer throws. *)
Definition slice (buf : list byte) (off n : nat) : result (list byte) :=
  if (off + n <=? length buf)%nat then Ok (take n (drop off buf))
  else Throw RangeError.

(** Overwrite the bytes at [off] with [bs]; a write that leaves the buffer
    throws. *)
Definition blit (buf : list byte) (off : nat) (bs : list byte)
  : result (list byte) :=
  if (off + length bs <=? length buf)%nat
  then Ok (take off buf ++ bs ++ drop (off + length bs) buf)
  else Throw RangeError.

(** Reinterpret an unsigned [bits]-bit number as a signed one. *)
Definition to_signed (bits : Z) (u : Z) : Z :=
  if u <? 2 ^ (bits - 1) then u else u - 2 ^ bits.

Definition readUIntBE (n : nat) (buf : list byte) (off : nat) : result Z :=
  bs ← slice buf off n; Ok (be_value bs).

Definition readIntBE (n : nat) (buf : list byte) (off : nat) : result Z :=
  u ← readUIntBE n buf off; Ok (to_signed (8 * Z.of_nat n) u).

(** Node checks the value against the field's range before it writes, and
    the offset after that. Which class the error of the value check has
    depends on the Node version, see [ValueOutOfBounds]. *)
Definition writeUIntBE (n : nat) (buf : list byte) (value : Z) (off : nat)
  : result (list byte) :=
  if (0 <=? value) && (value <=? 2 ^ (8 * Z.of_nat n) - 1)
  then blit buf off (be_bytes n value)
  else Throw ValueOutOfBounds.

Definition writeIntBE (n : nat) (buf : list byte) (value : Z) (off : nat)
  : result (list byte) :=
  if (- 2 ^ (8 * Z.of_nat n - 1) <=? value)
     && (value <=? 2 ^ (8 * Z.of_nat n - 1) - 1)
  then blit buf off (be_bytes n value)
  else Throw ValueOutOfBounds.

Definition readUInt8 := readUIntBE 1.
Definition readInt8 := readIntBE 1.
Definition readUInt16BE := readUIntBE 2.
Definition readUInt32BE := readUIntBE 4.
Definition readInt32BE := readIntBE 4.
Definition writeUInt8 := writeUIntBE 1.
Definition writeUInt16BE := writeUIntBE 2.
Definition writeUInt32BE := writeUIntBE 4.
Definition writeInt32BE := writeIntBE 4.

(** [buf[i]] as an expression: [None] is JavaScript's [undefined]. *)
Definition index (buf : list byte) (i : nat) : option Z := u8 <$> buf !! i.

(** [buf[i] = v]: the value is stored modulo 256 and a store past the end
    does nothing, as for every typed array. *)
Definition set_index (buf : list byte) (i : nat) (v : Z) : list byte :=
  <[i := byte_of v]> buf.

(** [buf[i]] where a number is needed. Past the end JavaScript yields
    [undefined] and goes on; in [deserialize] below such a buffer is shorter
    than the last field read, so the same call throws RangeError a few reads
    later: the model raises it here. *)
Definition index_number (buf : list byte) (i : nat) : result Z :=
  match index buf i with
  | Some v => Ok v
  | None => Throw RangeError
  end.

End Buffer.

(** ** lib/atemUtil *)

Module Util.

(** Modelled from the spec: [Util.parseNumberBetween] is not among the files
    at hand. "Decoding a field whose raw value lies outside the field's valid
    numeric range is a protocol-data error — the policy is to clamp to the
    nearest valid bound and continue (never to abort the whole packet)". *)
Definition parseNumberBetween (num min max : Z) : result Z :=
  if num >? max then Ok max
  else if num <? min then Ok min
  else Ok num.

(** Modelled from the spec: [Util.parseEnum] is not among the files at hand.
    "enumerated fields validated against a closed set of known values"; a
    value outside the set is a protocol-data error of the packet. The set is
    the enum's list of values. *)
Definition parseEnum (value : Z) (type : list Z) : result Z :=
  if bool_decide (value ∈ type) then Ok value else Throw EnumError.

End Util.

(** ** state/video/upstreamKeyers: the DVE settings record *)

Record UpstreamKeyerDVESettings : Type := {
  sizeX : Z;
  sizeY : Z;
  positionX : Z;
  positionY : Z;
  rotation : Z;
  borderEnabled : bool;
  shadowEnabled : bool;
  borderBevel : Z;
  borderOuterWidth : Z;
  borderInnerWidth : Z;
  borderOuterSoftness : Z;
  borderInnerSoftness : Z;
  borderBevelSoftness : Z;
  borderBevelPosition : Z;
  borderOpacity : Z;
  borderHue : Z;
  borderSaturation : Z;
  borderLuma : Z;
  lightSourceDirection : Z;
  lightSourceAltitude : Z;
  maskEnabled : bool;
  maskTop : Z;
  maskBottom : Z;
  maskLeft : Z;
  maskRight : Z;
  rate : Z
}.

(** ** MixEffectKeyDVECommand (CKDV), the setter *)

Module MixEffectKeyDVECommand.

Record t : Type := {
  flag : Z;
  mixEffect : Z;
  upstreamKeyerId : Z;
  properties : UpstreamKeyerDVESettings
}.

Definition serialize (this : t) : result (list byte) :=
  let buffer := Buffer.alloc 64 in
  buffer ← Buffer.writeUInt32BE buffer (flag this) 0;
  buffer ← Buffer.writeUInt8 buffer (mixEffect this) 4;
  buffer ← Buffer.writeUInt8 buffer (upstreamKeyerId this) 5;

  buffer ← Buffer.writeUInt32BE buffer (sizeX (properties this)) 8;
  buffer ← Buffer.writeUInt32BE buffer (sizeY (properties this)) 12;
  buffer ← Buffer.writeInt32BE buffer (positionX (properties this)) 16;
  buffer ← Buffer.writeInt32BE buffer (positionY (properties this)) 20;
  buffer ← Buffer.writeInt32BE buffer (rotation (properties this)) 24;

  let buffer := Buffer.set_index buffer 28
                  (if borderEnabled (properties this) then 1 else 0) in
  let buffer := Buffer.set_index buffer 29
                  (if shadowEnabled (properties this) then 1 else 0) in
  buffer ← Buffer.writeUInt8 buffer (borderBevel (properties this)) 30;
  buffer ← Buffer.writeUInt16BE buffer (borderOuterWidth (properties this)) 32;
  buffer ← Buffer.writeUInt16BE buffer (borderInnerWidth (properties this)) 34;
  buffer ← Buffer.writeUInt8 buffer (borderOuterSoftness (properties this)) 36;
  buffer ← Buffer.writeUInt8 buffer (borderInnerSoftness (properties this)) 37;
  buffer ← Buffer.writeUInt8 buffer (borderBevelSoftness (properties this)) 38;
  buffer ← Buffer.writeUInt8 buffer (borderBevelPosition (properties this)) 39;
  buffer ← Buffer.writeUInt8 buffer (borderOpacity (properties this)) 40;

  buffer ← Buffer.writeUInt16BE buffer (borderHue (properties this)) 42;
  buffer ← Buffer.writeUInt16BE buffer (borderSaturation (properties this)) 44;
  buffer ← Buffer.writeUInt16BE buffer (borderLuma (properties this)) 46;

  buffer ← Buffer.writeUInt16BE buffer (lightSourceDirection (properties this)) 48;
  buffer ← Buffer.writeUInt8 buffer (lightSourceAltitude (properties this)) 50;

  let buffer := Buffer.set_index buffer 51
                  (if maskEnabled (properties this) then 1 else 0) in
  buffer ← Buffer.writeUInt16BE buffer (maskTop (properties this)) 52;
  buffer ← Buffer.writeUInt16BE buffer (maskBottom (properties this)) 54;
  buffer ← Buffer.writeUInt16BE buffer (maskLeft (properties this)) 56;
  buffer ← Buffer.writeUInt16BE buffer (maskRight (properties this)) 58;

  buffer ← Buffer.writeUInt8 buffer (rate (properties this)) 60;

  Ok buffer.

(** The static [MaskFlags] table: for each property the bit [1 << i] that
    marks it as set in the flag word. *)
Definition MaskFlags : list (string * Z) :=
  [("sizeX", Z.shiftl 1 0);
   ("sizeY", Z.shiftl 1 1);
   ("positionX", Z.shiftl 1 2);
   ("positionY", Z.shiftl 1 3);
   ("rotation", Z.shiftl 1 4);
   ("borderEnabled", Z.shiftl 1 5);
   ("shadowEnabled", Z.shiftl 1 6);
   ("borderBevel", Z.shiftl 1 7);
   ("borderOuterWidth", Z.shiftl 1 8);
   ("borderInnerWidth", Z.shiftl 1 9);
   ("borderOuterSoftness", Z.shiftl 1 10);
   ("borderInnerSoftness", Z.shiftl 1 11);
   ("borderBevelSoftness", Z.shiftl 1 12);
   ("borderBevelPosition", Z.shiftl 1 13);
   ("borderOpacity", Z.shiftl 1 14);
   ("borderHue", Z.shiftl 1 15);
   ("borderSaturation", Z.shiftl 1 16);
   ("borderLuma", Z.shiftl 1 17);
   ("lightSourceDirection", Z.shiftl 1 18);
   ("lightSourceAltitude", Z.shiftl 1 19);
   ("maskEnabled", Z.shiftl 1 20);
   ("maskTop", Z.shiftl 1 21);
   ("maskBottom", Z.shiftl 1 22);
   ("maskLeft", Z.shiftl 1 23);
   ("maskRight", Z.shiftl 1 24);
   ("rate", Z.shiftl 1 25)].

End MixEffectKeyDVECommand.

(** ** The mirrored state tree (state/index, state/video) *)

Module State.
Section Tree.

(** The fields of a node that are declared in files not at hand. *)
Context {Other : Type}.

Record UpstreamKeyer : Type := {
  dveSettings : option UpstreamKeyerDVESettings;
  upstreamKeyer_other : Other
}.

Record MixEffect : Type := {
  upstreamKeyers : gmap Z UpstreamKeyer;
  mixEffect_other : Other
}.

Record AtemVideoState : Type := {
  ME : gmap Z MixEffect;
  video_other : Other
}.

Record DeviceInfo : Type := {
  apiVersion : Z;
  info_other : Other
}.

Record AtemState : Type := {
  info : DeviceInfo;
  video : AtemVideoState;
  state_other : Other
}.

(** What [new MixEffect(index)] and a fresh keyer object hold. *)
Variable newMixEffect : Z -> MixEffect.
Variable newUpstreamKeyer : Z -> UpstreamKeyer.

(** Modelled from the spec: [AtemVideoState.getMe] is not among the files at
    hand. "creating nested nodes lazily if addressed indices have not been
    seen before". The node is returned together with the tree that now
    holds it. *)
Definition getMe (this : AtemVideoState) (index : Z)
  : AtemVideoState * MixEffect :=
  match ME this !! index with
  | Some me => (this, me)
  | None =>
      let me := newMixEffect index in
      ({| ME := <[index := me]> (ME this); video_other := video_other this |},
       me)
  end.

(** Modelled from the spec: [MixEffect.getUpstreamKeyer] is not among the
    files at hand; lazily created like [getMe]. *)
Definition getUpstreamKeyer (this : MixEffect) (index : Z)
  : MixEffect * UpstreamKeyer :=
  match upstreamKeyers this !! index with
  | Some usk => (this, usk)
  | None =>
      let usk := newUpstreamKeyer index in
      ({| upstreamKeyers := <[index := usk]> (upstreamKeyers this);
          mixEffect_other := mixEffect_other this |},
       usk)
  end.

End Tree.
Arguments UpstreamKeyer : clear implicits.
Arguments MixEffect : clear implicits.
Arguments AtemVideoState : clear implicits.
Arguments DeviceInfo : clear implicits.
Arguments AtemState : clear implicits.
End State.

(** ** MixEffectKeyDVEUpdateCommand (KeDV), the notifier *)

Module MixEffectKeyDVEUpdateCommand.

Record t : Type := {
  mixEffect : Z;
  upstreamKeyerId : Z;
  properties : UpstreamKeyerDVESettings
}.

Section Deserialize.

(** The values of [Enums.BorderBevel], declared in a file not at hand. *)
Variable BorderBevel : list Z.

Definition deserialize (rawCommand : list byte) : result t :=
  raw0 ← Buffer.index_number rawCommand 0;
  mixEffect ← Util.parseNumberBetween raw0 0 3;
  raw1 ← Buffer.index_number rawCommand 1;
  upstreamKeyerId ← Util.parseNumberBetween raw1 0 3;

  raw ← Buffer.readUInt32BE rawCommand 4;
  sizeX ← Util.parseNumberBetween raw 0 (2 ^ 32 - 1);
  raw ← Buffer.readUInt32BE rawCommand 8;
  sizeY ← Util.parseNumberBetween raw 0 (2 ^ 32 - 1);

  raw ← Buffer.readInt32BE rawCommand 12;
  positionX ← Util.parseNumberBetween raw (-1000 * 1000) (1000 * 1000);
  raw ← Buffer.readInt32BE rawCommand 16;
  positionY ← Util.parseNumberBetween raw (-1000 * 1000) (1000 * 1000);
  raw ← Buffer.readInt32BE rawCommand 20;
  rotation ← Util.parseNumberBetween raw (-332230) 332230;

  let borderEnabled := bool_decide (Buffer.index rawCommand 24 = Some 1) in
  let shadowEnabled := bool_decide (Buffer.index rawCommand 25 = Some 1) in
  raw ← Buffer.readUInt8 rawCommand 26;
  borderBevel ← Util.parseEnum raw BorderBevel;
  raw ← Buffer.readUInt16BE rawCommand 28;
  borderOuterWidth ← Util.parseNumberBetween raw 0 1600;
  raw ← Buffer.readUInt16BE rawCommand 30;
  borderInnerWidth ← Util.parseNumberBetween raw 0 1600;
  raw ← Buffer.readInt8 rawCommand 32;
  borderOuterSoftness ← Util.parseNumberBetween raw 0 100;
  raw ← Buffer.readInt8 rawCommand 33;
  borderInnerSoftness ← Util.parseNumberBetween raw 0 100;
  raw ← Buffer.readInt8 rawCommand 34;
  borderBevelSoftness ← Util.parseNumberBetween raw 0 100;
  raw ← Buffer.readInt8 rawCommand 35;
  borderBevelPosition ← Util.parseNumberBetween raw 0 100;

  raw ← Buffer.readInt8 rawCommand 36;
  borderOpacity ← Util.parseNumberBetween raw 0 100;
  raw ← Buffer.readUInt16BE rawCommand 38;
  borderHue ← Util.parseNumberBetween raw 0 3600;
  raw ← Buffer.readUInt16BE rawCommand 40;
  borderSaturation ← Util.parseNumberBetween raw 0 1000;
  raw ← Buffer.readUInt16BE rawCommand 42;
  borderLuma ← Util.parseNumberBetween raw 0 1000;

  raw ← Buffer.readUInt16BE rawCommand 44;
  lightSourceDirection ← Util.parseNumberBetween raw 0 3599;
  raw ← Buffer.readUInt8 rawCommand 46;
  lightSourceAltitude ← Util.parseNumberBetween raw 0 100;

  let maskEnabled := bool_decide (Buffer.index rawCommand 47 = Some 1) in
  raw ← Buffer.readUInt16BE rawCommand 48;
  maskTop ← Util.parseNumberBetween raw 0 38000;
  raw ← Buffer.readUInt16BE rawCommand 50;
  maskBottom ← Util.parseNumberBetween raw 0 38000;
  raw ← Buffer.readUInt16BE rawCommand 52;
  maskLeft ← Util.parseNumberBetween raw 0 52000;
  raw ← Buffer.readUInt16BE rawCommand 54;
  maskRight ← Util.parseNumberBetween raw 0 52000;

  raw ← Buffer.readUInt8 rawCommand 56;
  rate ← Util.parseNumberBetween raw 0 250;

  Ok {|
    mixEffect := mixEffect;
    upstreamKeyerId := upstreamKeyerId;
    properties := {|
      sizeX := sizeX;
      sizeY := sizeY;
      positionX := positionX;
      positionY := positionY;
      rotation := rotation;
      borderEnabled := borderEnabled;
      shadowEnabled := shadowEnabled;
      borderBevel := borderBevel;
      borderOuterWidth := borderOuterWidth;
      borderInnerWidth := borderInnerWidth;
      borderOuterSoftness := borderOuterSoftness;
      borderInnerSoftness := borderInnerSoftness;
      borderBevelSoftness := borderBevelSoftness;
      borderBevelPosition := borderBevelPosition;
      borderOpacity := borderOpacity;
      borderHue := borderHue;
      borderSaturation := borderSaturation;
      borderLuma := borderLuma;
      lightSourceDirection := lightSourceDirection;
      lightSourceAltitude := lightSourceAltitude;
      maskEnabled := maskEnabled;
      maskTop := maskTop;
      maskBottom := maskBottom;
      maskLeft := maskLeft;
      maskRight := maskRight;
      rate := rate
    |}
  |}.

End Deserialize.

Section ApplyToState.

Context {Other : Type}.
Variable newMixEffect : Z -> State.MixEffect Other.
Variable newUpstreamKeyer : Z -> State.UpstreamKeyer Other.

(** The path the template literal builds. *)
Definition changePath (this : t) : string :=
  "video.ME." +:+ pretty (mixEffect this) +:+ ".upstreamKeyers."
    +:+ pretty (upstreamKeyerId this) +:+ ".dveSettings".

(** [me] (the source's local [mixEffect]) and [upstreamKeyer] are references
    into the tree: the assignment to [upstreamKeyer.dveSettings] is seen
    through [state.video.ME[m].upstreamKeyers[k]]. The model writes the
    changed node back at the keys it was fetched from. *)
Definition applyToState (this : t) (state : State.AtemState Other)
  : State.AtemState Other * string :=
  let '(video1, me) :=
    State.getMe newMixEffect (State.video state) (mixEffect this) in
  let '(me1, upstreamKeyer) :=
    State.getUpstreamKeyer newUpstreamKeyer me (upstreamKeyerId this) in
  let upstreamKeyer' :=
    {| State.dveSettings := Some (properties this);
       State.upstreamKeyer_other := State.upstreamKeyer_other upstreamKeyer |} in
  let me' :=
    {| State.upstreamKeyers :=
         <[upstreamKeyerId this := upstreamKeyer']> (State.upstreamKeyers me1);
       State.mixEffect_other := State.mixEffect_other me1 |} in
  ({| State.info := State.info state;
      State.video :=
        {| State.ME := <[mixEffect this := me']> (State.ME video1);
           State.video_other := State.video_other video1 |};
      State.state_other := State.state_other state |},
   changePath this).

End ApplyToState.

End MixEffectKeyDVEUpdateCommand.

(** ** lib/atemSocket *)

Module AtemSocket.

(** Modelled from the spec: the socket class is not among the files at hand.
    "Tracking identifiers are assigned monotonically by the issuing layer and
    are independent of wire sequence numbers so that commands can be queued
    before a session exists": the socket keeps a tracking counter of its own
    beside the wire sequence counter and the session, and queues what it is
    handed. *)
Record t : Type := {
  _nextCommandTrackingId : Z;
  _localPacketId : Z;
  _sessionId : option Z;
  _queued : list (Z * nat)
}.

(** Modelled from the spec: the getter [socket.nextPacketId] of the absent
    socket class. "Tracking identifiers are assigned monotonically": the next
    tracking identifier; reading it advances the tracking counter and
    nothing else. *)
Definition nextPacketId (this : t) : Z * t :=
  let id := _nextCommandTrackingId this + 1 in
  (id, {| _nextCommandTrackingId := id;
          _localPacketId := _localPacketId this;
          _sessionId := _sessionId this;
          _queued := _queued this |}).

(** Modelled from the spec: [socket._sendCommand(command, trackingId)] of
    the absent socket class. "commands can be queued before a session
    exists": the command is queued under its tracking identifier, session or
    no session. *)
Definition _sendCommand (command : nat) (trackingId : Z) (this : t) : t :=
  {| _nextCommandTrackingId := _nextCommandTrackingId this;
     _localPacketId := _localPacketId this;
     _sessionId := _sessionId this;
     _queued := _queued this ++ [(trackingId, command)] |}.

End AtemSocket.

(** ** atem.ts: the Atem class *)

Module Atem.
Section Model.

(** [Other]: the state fields declared elsewhere; [Props]: the property sets
    handed to [updateProps]. *)
Context {Other Props : Type}.

(** What [applyToState] returns: one path or an array of paths. *)
Inductive ChangePaths : Type :=
| OnePath (path : string)
| PathArray (paths : list string).

(** A command object. [resolve] and [reject] hold the settle functions of a
    promise, named by the promise. AbstractCommand is not among the files at
    hand: [updates] is the log of the property sets given to [updateProps],
    which stands for whatever the method makes of them. *)
Record AbstractCommand : Type := {
  constructor_name : string;
  ssrcId : option Z;
  updates : list Props;
  applyToState : option (State.AtemState Other ->
                         State.AtemState Other * ChangePaths);
  resolve : option nat;
  reject : option nat
}.

(** What a promise settles with: a command object (by reference) or the
    error of a failed send. *)
Inductive Value : Type :=
| VCommand (ref : nat)
| VError (message : string).

Inductive PromiseState : Type :=
| Pending
| Fulfilled (v : Value)
| Rejected (v : Value).

Inductive Event : Type :=
| EvError (e : string)
| EvConnected
| EvDisconnected
| EvStateChanged (state : State.AtemState Other) (path : string)
| EvReceivedCommand (cmd : AbstractCommand).

(** The object: its fields, the store of command objects (a reference is an
    index), the store of promises, and the events emitted so far. The keys
    of [_sentQueue] are the tracking identifiers (numbers, which JavaScript
    writes as strings to key the object). *)
Record t : Type := {
  state : State.AtemState Other;
  socket : AtemSocket.t;
  _sentQueue : gmap Z nat;
  commands : list AbstractCommand;
  promises : list PromiseState;
  emitted : list Event
}.

Definition set_socket (s : AtemSocket.t) (this : t) : t :=
  {| state := state this; socket := s; _sentQueue := _sentQueue this;
     commands := commands this; promises := promises this;
     emitted := emitted this |}.

Definition set_state (s : State.AtemState Other) (this : t) : t :=
  {| state := s; socket := socket this; _sentQueue := _sentQueue this;
     commands := commands this; promises := promises this;
     emitted := emitted this |}.

Definition set_sentQueue (q : gmap Z nat) (this : t) : t :=
  {| state := state this; socket := socket this; _sentQueue := q;
     commands := commands this; promises := promises this;
     emitted := emitted this |}.

Definition set_commands (cs : list AbstractCommand) (this : t) : t :=
  {| state := state this; socket := socket this;
     _sentQueue := _sentQueue this; commands := cs;
     promises := promises this; emitted := emitted this |}.

Definition set_promises (ps : list PromiseState) (this : t) : t :=
  {| state := state this; socket := socket this;
     _sentQueue := _sentQueue this; commands := commands this;
     promises := ps; emitted := emitted this |}.

(** [this.emit(...)]. *)
Definition emit (e : Event) (this : t) : t :=
  {| state := state this; socket := socket this;
     _sentQueue := _sentQueue this; commands := commands this;
     promises := promises this; emitted := emitted this ++ [e] |}.

(** Calling the [resolve] or [reject] function of promise [p]: a promise
    settles once, later calls do nothing. *)
Definition settle (p : nat) (s : PromiseState) (ps : list PromiseState)
  : list PromiseState :=
  match ps !! p with
  | Some Pending => <[p := s]> ps
  | _ => ps
  end.

Definition with_settlers (p : nat) (c : AbstractCommand) : AbstractCommand :=
  {| constructor_name := constructor_name c; ssrcId := ssrcId c;
     updates := updates c; applyToState := applyToState c;
     resolve := Some p; reject := Some p |}.

(** [sendCommand(command)]: the new promise and the object afterwards. The
    executor of [new Promise] runs at once, so [command.resolve] and
    [command.reject] are set before [sendCommand] returns. *)
Definition sendCommand (command : nat) (this : t) : nat * t :=
  let '(nextPacketId, socket1) := AtemSocket.nextPacketId (socket this) in
  let this := set_socket socket1 this in
  let this := set_sentQueue (<[nextPacketId := command]> (_sentQueue this)) this in
  let p := length (promises this) in
  let this := set_promises (promises this ++ [Pending]) this in
  let this := set_commands (alter (with_settlers p) command (commands this)) this in
  let this :=
    set_socket (AtemSocket._sendCommand command nextPacketId (socket this)) this in
  (p, this).

(** The [.catch(reject)] of [sendCommand]: the socket's own promise failed
    with [e], and the [reject] of promise [p] is called with it. *)
Definition sendCommand_catch (p : nat) (e : string) (this : t) : t :=
  set_promises (settle p (Rejected (VError e)) (promises this)) this.

(** A queue entry is a command object, so [if (this._sentQueue[trackingId])]
    asks whether the key is there. Calling a [resolve] that was never set
    throws before the entry is deleted. *)
Definition _resolveCommand (trackingId : Z) (this : t) : result t :=
  match _sentQueue this !! trackingId with
  | Some c =>
      match commands this !! c ≫= resolve with
      | Some p =>
          let this :=
            set_promises (settle p (Fulfilled (VCommand c)) (promises this)) this in
          Ok (set_sentQueue (delete trackingId (_sentQueue this)) this)
      | None => Throw TypeError
      end
  | None => Ok this
  end.

Definition _rejectCommand (trackingId : Z) (this : t) : result t :=
  match _sentQueue this !! trackingId with
  | Some c =>
      match commands this !! c ≫= reject with
      | Some p =>
          let this :=
            set_promises (settle p (Rejected (VCommand c)) (promises this)) this in
          Ok (set_sentQueue (delete trackingId (_sentQueue this)) this)
      | None => Throw TypeError
      end
  | None => Ok this
  end.

(** The keys of the [DataTransferCommands] module object, and what the data
    transfer manager does with a command (neither is among the files at
    hand; the manager holds a closure over [sendCommand], so it may change
    the whole object). *)
Variable DataTransferCommands : list string.
Variable handleCommand : AbstractCommand -> t -> t.

Definition _mutateState (command : AbstractCommand) (this : t) : t :=
  let this :=
    match applyToState command with
    | Some apply =>
        let '(state', changePaths) := apply (state this) in
        let this := set_state state' this in
        let changePaths :=
          match changePaths with
          | PathArray paths => paths
          | OnePath path => [path]
          end in
        foldl (fun this path => emit (EvStateChanged (state this) path) this)
              this changePaths
    | None => this
    end in
  foldl (fun this commandName =>
           if String.eqb (constructor_name command) commandName
           then handleCommand command this
           else this)
        this DataTransferCommands.

(** The listeners the constructor puts on the socket. *)
Definition on_receivedStateChange (command : AbstractCommand) (this : t) : t :=
  _mutateState command (emit (EvReceivedCommand command) this).
Definition on_CommandAcknowledged (trackingId : Z) (this : t) : result t :=
  _resolveCommand trackingId this.
Definition on_CommandTimeout (trackingId : Z) (this : t) : result t :=
  _rejectCommand trackingId this.
Definition on_error (e : string) (this : t) : t := emit (EvError e) this.
Definition on_connect (this : t) : t := emit EvConnected this.
Definition on_disconnect (this : t) : t := emit EvDisconnected this.

(** [new Commands.X()]: a fresh object at the end of the store. *)
Definition new_command (name : string) (this : t) : nat * t :=
  (length (commands this),
   set_commands
     (commands this ++
        [{| constructor_name := name; ssrcId := None; updates := [];
            applyToState := None; resolve := None; reject := None |}])
     this).

Definition set_ssrcId (v : Z) (c : AbstractCommand) : AbstractCommand :=
  {| constructor_name := constructor_name c; ssrcId := Some v;
     updates := updates c; applyToState := applyToState c;
     resolve := resolve c; reject := reject c |}.

Definition updateProps (newProps : Props) (c : AbstractCommand)
  : AbstractCommand :=
  {| constructor_name := constructor_name c; ssrcId := ssrcId c;
     updates := updates c ++ [newProps]; applyToState := applyToState c;
     resolve := resolve c; reject := reject c |}.

(** [Enums.ProtocolVersion.V8_0], declared in a file not at hand. *)
Variable V8_0 : Z.

Definition setSuperSourceProperties (newProps : Props) (ssrcId : Z) (this : t)
  : nat * t :=
  if State.apiVersion (State.info (state this)) >=? V8_0 then
    let '(command, this) := new_command "SuperSourcePropertiesV8Command" this in
    let this := set_commands (alter (set_ssrcId ssrcId) command (commands this)) this in
    let this := set_commands (alter (updateProps newProps) command (commands this)) this in
    sendCommand command this
  else
    let '(command, this) := new_command "SuperSourcePropertiesCommand" this in
    let this := set_commands (alter (updateProps newProps) command (commands this)) this in
    sendCommand command this.

Definition setSuperSourceBorder (newProps : Props) (ssrcId : Z) (this : t)
  : nat * t :=
  if State.apiVersion (State.info (state this)) >=? V8_0 then
    let '(command, this) := new_command "SuperSourceBorderCommand" this in
    let this := set_commands (alter (set_ssrcId ssrcId) command (commands this)) this in
    let this := set_commands (alter (updateProps newProps) command (commands this)) this in
    sendCommand command this
  else
    let '(command, this) := new_command "SuperSourcePropertiesCommand" this in
    let this := set_commands (alter (updateProps newProps) command (commands this)) this in
    sendCommand command this.


(** The constructor: a fresh state tree and socket, nothing sent, nothing
    emitted. *)
Definition new (state0 : State.AtemState Other) (socket0 : AtemSocket.t) : t :=
  {| state := state0; socket := socket0; _sentQueue := ∅;
     commands := []; promises := []; emitted := [] |}.

(** Every command in the sent-queue is an object of the store that carries
    its two settle functions: what [sendCommand] leaves behind. *)
Definition settlers_installed (this : t) : Prop :=
  forall trackingId c, _sentQueue this !! trackingId = Some c ->
    exists cmd p q,
      commands this !! c = Some cmd /\ resolve cmd = Some p /\ reject cmd = Some q.

(** Command [c] waits under [trackingId] for the settlement of promise [p]. *)
Definition registered (this : t) (trackingId : Z) (c p : nat) : Prop :=
  _sentQueue this !! trackingId = Some c /\
  (exists cmd, commands this !! c = Some cmd /\
               resolve cmd = Some p /\ reject cmd = Some p) /\
  promises this !! p = Some Pending.

(** What can happen to the object, one call or socket event at a time.
    [step_assign] is an assignment to a field of a command object other
    than its settle functions. A received command that the data transfer
    manager handles is left out: what the manager does is not known here,
    and its sends are [step_sendCommand]s of their own. *)
Inductive step : t -> t -> Prop :=
| step_new name this :
    step this (new_command name this).2
| step_assign f command this :
    (forall c, resolve (f c) = resolve c /\ reject (f c) = reject c) ->
    step this (set_commands (alter f command (commands this)) this)
| step_sendCommand command this :
    (command < length (commands this))%nat ->
    step this (sendCommand command this).2
| step_send_failed p e this :
    step this (sendCommand_catch p e this)
| step_acknowledged trackingId this this' :
    on_CommandAcknowledged trackingId this = Ok this' -> step this this'
| step_timeout trackingId this this' :
    on_CommandTimeout trackingId this = Ok this' -> step this this'
| step_receivedStateChange command this :
    constructor_name command ∉ DataTransferCommands ->
    step this (on_receivedStateChange command this)
| step_error e this : step this (on_error e this)
| step_connect this : step this (on_connect this)
| step_disconnect this : step this (on_disconnect this).

End Model.
Arguments ChangePaths : clear implicits.
Arguments AbstractCommand : clear implicits.
Arguments Event : clear implicits.
Arguments t : clear implicits.
End Atem.

(** ** The decoded notifier as the command object the socket hands over *)

Section Received.

Context {Other Props : Type}.
Variable newMixEffect : Z -> State.MixEffect Other.
Variable newUpstreamKeyer : Z -> State.UpstreamKeyer Other.

Definition MixEffectKeyDVEUpdateCommand_object
  (cmd : MixEffectKeyDVEUpdateCommand.t) : Atem.AbstractCommand Other Props :=
  {| Atem.constructor_name := "MixEffectKeyDVEUpdateCommand";
     Atem.ssrcId := None;
     Atem.updates := [];
     Atem.applyToState := Some (fun state =>
       let '(state', path) :=
         MixEffectKeyDVEUpdateCommand.applyToState
           newMixEffect newUpstreamKeyer cmd state in
       (state', Atem.OnePath path));
     Atem.resolve := None;
     Atem.reject := None |}.

End Received.

(** ** Vocabulary of the statements *)

(** The ranges [deserialize] gives to [parseNumberBetween], field by field. *)
Definition within_decode_ranges (p : UpstreamKeyerDVESettings) : Prop :=
  0 <= sizeX p <= 2 ^ 32 - 1 /\
  0 <= sizeY p <= 2 ^ 32 - 1 /\
  -1000 * 1000 <= positionX p <= 1000 * 1000 /\
  -1000 * 1000 <= positionY p <= 1000 * 1000 /\
  -332230 <= rotation p <= 332230 /\
  0 <= borderOuterWidth p <= 1600 /\
  0 <= borderInnerWidth p <= 1600 /\
  0 <= borderOuterSoftness p <= 100 /\
  0 <= borderInnerSoftness p <= 100 /\
  0 <= borderBevelSoftness p <= 100 /\
  0 <= borderBevelPosition p <= 100 /\
  0 <= borderOpacity p <= 100 /\
  0 <= borderHue p <= 3600 /\
  0 <= borderSaturation p <= 1000 /\
  0 <= borderLuma p <= 1000 /\
  0 <= lightSourceDirection p <= 3599 /\
  0 <= lightSourceAltitude p <= 100 /\
  0 <= maskTop p <= 38000 /\
  0 <= maskBottom p <= 38000 /\
  0 <= maskLeft p <= 52000 /\
  0 <= maskRight p <= 52000 /\
  0 <= rate p <= 250.



(** Every field lies in the range of the write [serialize] makes for it:
    8, 16 or 32 bits unsigned, 32 bits signed for the position and the
    rotation. *)
Definition fits_wire (cmd : MixEffectKeyDVECommand.t) : Prop :=
  let p := MixEffectKeyDVECommand.properties cmd in
  0 <= MixEffectKeyDVECommand.flag cmd <= 4294967295 /\
  0 <= MixEffectKeyDVECommand.mixEffect cmd <= 255 /\
  0 <= MixEffectKeyDVECommand.upstreamKeyerId cmd <= 255 /\
  0 <= sizeX p <= 4294967295 /\
  0 <= sizeY p <= 4294967295 /\
  -2147483648 <= positionX p <= 2147483647 /\
  -2147483648 <= positionY p <= 2147483647 /\
  -2147483648 <= rotation p <= 2147483647 /\
  0 <= borderBevel p <= 255 /\
  0 <= borderOuterWidth p <= 65535 /\
  0 <= borderInnerWidth p <= 65535 /\
  0 <= borderOuterSoftness p <= 255 /\
  0 <= borderInnerSoftness p <= 255 /\
  0 <= borderBevelSoftness p <= 255 /\
  0 <= borderBevelPosition p <= 255 /\
  0 <= borderOpacity p <= 255 /\
  0 <= borderHue p <= 65535 /\
  0 <= borderSaturation p <= 65535 /\
  0 <= borderLuma p <= 65535 /\
  0 <= lightSourceDirection p <= 65535 /\
  0 <= lightSourceAltitude p <= 255 /\
  0 <= maskTop p <= 65535 /\
  0 <= maskBottom p <= 65535 /\
  0 <= maskLeft p <= 65535 /\
  0 <= maskRight p <= 65535 /\
  0 <= rate p <= 255.

(** What [readInt8] makes of a byte that holds [v]. *)
Definition as_int8 (v : Z) : Z := if v <? 128 then v else v - 256.

(** The flag word of a selection of [MaskFlags] entries: their bitwise or. *)
Definition flag_word (selection : list (string * Z)) : Z :=
  foldr (fun entry word => Z.lor entry.2 word) 0 selection.

(** The 64 bytes of the CKDV layout, field after field: what [serialize]
    writes, said without the writes. The runs of [Buffer.alloc] are the
    bytes no write touches. *)
Definition wire_bytes (cmd : MixEffectKeyDVECommand.t) : list byte :=
  let p := MixEffectKeyDVECommand.properties cmd in
  let flag b := Buffer.byte_of (if b : bool then 1 else 0) in
  Buffer.be_bytes 4 (MixEffectKeyDVECommand.flag cmd)
  ++ Buffer.be_bytes 1 (MixEffectKeyDVECommand.mixEffect cmd)
  ++ Buffer.be_bytes 1 (MixEffectKeyDVECommand.upstreamKeyerId cmd)
  ++ Buffer.alloc 2
  ++ Buffer.be_bytes 4 (sizeX p) ++ Buffer.be_bytes 4 (sizeY p)
  ++ Buffer.be_bytes 4 (positionX p) ++ Buffer.be_bytes 4 (positionY p)
  ++ Buffer.be_bytes 4 (rotation p)
  ++ [flag (borderEnabled p); flag (shadowEnabled p)]
  ++ Buffer.be_bytes 1 (borderBevel p) ++ Buffer.alloc 1
  ++ Buffer.be_bytes 2 (borderOuterWidth p)
  ++ Buffer.be_bytes 2 (borderInnerWidth p)
  ++ Buffer.be_bytes 1 (borderOuterSoftness p)
  ++ Buffer.be_bytes 1 (borderInnerSoftness p)
  ++ Buffer.be_bytes 1 (borderBevelSoftness p)
  ++ Buffer.be_bytes 1 (borderBevelPosition p)
  ++ Buffer.be_bytes 1 (borderOpacity p) ++ Buffer.alloc 1
  ++ Buffer.be_bytes 2 (borderHue p) ++ Buffer.be_bytes 2 (borderSaturation p)
  ++ Buffer.be_bytes 2 (borderLuma p)
  ++ Buffer.be_bytes 2 (lightSourceDirection p)
  ++ Buffer.be_bytes 1 (lightSourceAltitude p)
  ++ [flag (maskEnabled p)]
  ++ Buffer.be_bytes 2 (maskTop p) ++ Buffer.be_bytes 2 (maskBottom p)
  ++ Buffer.be_bytes 2 (maskLeft p) ++ Buffer.be_bytes 2 (maskRight p)
  ++ Buffer.be_bytes 1 (rate p) ++ Buffer.alloc 3.

(** Promise [p] has no settle function left in any command object, and is
    pending or was rejected by a failed send. *)
Definition orphaned {Other Props : Type}
  (p : nat) (this : Atem.t Other Props) : Prop :=
  (forall c cmd, Atem.commands this !! c = Some cmd ->
     Atem.resolve cmd ≠ Some p /\ Atem.reject cmd ≠ Some p) /\
  (Atem.promises this !! p = Some Atem.Pending \/
   exists e, Atem.promises this !! p = Some (Atem.Rejected (Atem.VError e))).


(** ** Concrete values the examples run on *)

Module Sample.

Definition BorderBevel : list Z := [0; 1; 2; 3].

Definition settings : UpstreamKeyerDVESettings := {|
  sizeX := 4294967295; sizeY := 1000;
  positionX := -1000000; positionY := 1000000; rotation := -332230;
  borderEnabled := true; shadowEnabled := false; borderBevel := 2;
  borderOuterWidth := 1600; borderInnerWidth := 3;
  borderOuterSoftness := 100; borderInnerSoftness := 5;
  borderBevelSoftness := 6; borderBevelPosition := 7; borderOpacity := 8;
  borderHue := 3600; borderSaturation := 1000; borderLuma := 999;
  lightSourceDirection := 3599; lightSourceAltitude := 100;
  maskEnabled := true; maskTop := 38000; maskBottom := 1;
  maskLeft := 52000; maskRight := 2; rate := 250 |}.

Definition setter : MixEffectKeyDVECommand.t := {|
  MixEffectKeyDVECommand.flag := 67108863;
  MixEffectKeyDVECommand.mixEffect := 3;
  MixEffectKeyDVECommand.upstreamKeyerId := 1;
  MixEffectKeyDVECommand.properties := settings |}.

Definition notifier : MixEffectKeyDVEUpdateCommand.t := {|
  MixEffectKeyDVEUpdateCommand.mixEffect := 2;
  MixEffectKeyDVEUpdateCommand.upstreamKeyerId := 1;
  MixEffectKeyDVEUpdateCommand.properties := settings |}.

(** A KeDV payload whose every byte is 255, but for a known bevel (byte 26),
    a set border flag (byte 24) and a shadow flag of 2 (byte 25). *)
Definition out_of_range : list byte :=
  <[24%nat := "001"%byte]>
    (<[25%nat := "002"%byte]>
       (<[26%nat := "001"%byte]> (replicate 57 "255"%byte))).

Definition newMixEffect (index : Z) : State.MixEffect unit :=
  {| State.upstreamKeyers := ∅; State.mixEffect_other := tt |}.

Definition newUpstreamKeyer (index : Z) : State.UpstreamKeyer unit :=
  {| State.dveSettings := None; State.upstreamKeyer_other := tt |}.

Definition state0 : State.AtemState unit := {|
  State.info := {| State.apiVersion := 0; State.info_other := tt |};
  State.video := {| State.ME := ∅; State.video_other := tt |};
  State.state_other := tt |}.

Definition socket0 : AtemSocket.t := {|
  AtemSocket._nextCommandTrackingId := 0;
  AtemSocket._localPacketId := 0;
  AtemSocket._sessionId := None;
  AtemSocket._queued := [] |}.

Definition atem0 : Atem.t unit unit := Atem.new state0 socket0.

(** One command made and sent, its acknowledgment still out. *)
Definition one_pending : Atem.t unit unit :=
  let '(command, this) := Atem.new_command "CutCommand" atem0 in
  (Atem.sendCommand command this).2.

(** The object before that command is sent: made, not yet sent. *)
Definition one_made : Atem.t unit unit :=
  (Atem.new_command "CutCommand" atem0).2.

(** [one_pending] after the acknowledgment of tracking identifier 1. *)
Definition acknowledged : Atem.t unit unit :=
  match Atem._resolveCommand 1 one_pending with
  | Ok this => this
  | Throw _ => one_pending
  end.

(** The same command object sent twice, then both sends acknowledged. *)
Definition sent_twice_acknowledged : Atem.t unit unit :=
  let this := (Atem.sendCommand 0 one_pending).2 in
  match Atem._resolveCommand 1 this ≫= Atem._resolveCommand 2 with
  | Ok this => this
  | Throw _ => this
  end.

Definition DataTransferCommands : list string :=
  ["DataTransferDataCommand"; "LockObtainedCommand"].

Definition handleCommand
  (command : Atem.AbstractCommand unit unit) (this : Atem.t unit unit)
  : Atem.t unit unit := this.

(** A setter whose outer softness and opacity lie above 127. *)
Definition wide_softness : MixEffectKeyDVECommand.t := {|
  MixEffectKeyDVECommand.flag := 1024;
  MixEffectKeyDVECommand.mixEffect := 0;
  MixEffectKeyDVECommand.upstreamKeyerId := 0;
  MixEffectKeyDVECommand.properties := {|
    sizeX := 1; sizeY := 1; positionX := 0; positionY := 0; rotation := 0;
    borderEnabled := false; shadowEnabled := false; borderBevel := 0;
    borderOuterWidth := 0; borderInnerWidth := 0;
    borderOuterSoftness := 200; borderInnerSoftness := 100;
    borderBevelSoftness := 0; borderBevelPosition := 0; borderOpacity := 128;
    borderHue := 0; borderSaturation := 0; borderLuma := 0;
    lightSourceDirection := 0; lightSourceAltitude := 0;
    maskEnabled := false; maskTop := 0; maskBottom := 0;
    maskLeft := 0; maskRight := 0; rate := 0 |} |}.

(** [out_of_range] with other bytes where the notifier reads none (2, 3, 27
    and 37) and three more bytes at the end. *)
Definition out_of_range_padded : list byte :=
  <[2%nat := "007"%byte]>
    (<[3%nat := "008"%byte]>
       (<[27%nat := "009"%byte]>
          (<[37%nat := "010"%byte]> out_of_range)))
  ++ ["001"%byte; "002"%byte; "003"%byte].

(** Two entries of [MaskFlags]. *)
Definition selection : list (string * Z) :=
  [("sizeX", 1); ("rate", 33554432)].

(** A second notifier, for keyer 0 of the same mix effect. *)
Definition notifier_keyer0 : MixEffectKeyDVEUpdateCommand.t := {|
  MixEffectKeyDVEUpdateCommand.mixEffect := 2;
  MixEffectKeyDVEUpdateCommand.upstreamKeyerId := 0;
  MixEffectKeyDVEUpdateCommand.properties := settings |}.

(** A received command of a data transfer class, with no [applyToState]. *)
Definition lock_obtained : Atem.AbstractCommand unit unit := {|
  Atem.constructor_name := "LockObtainedCommand";
  Atem.ssrcId := None; Atem.updates := []; Atem.applyToState := None;
  Atem.resolve := None; Atem.reject := None |}.

(** A manager that leaves a trace: it emits an error event. *)
Definition handleCommand_loud
  (command : Atem.AbstractCommand unit unit) (this : Atem.t unit unit)
  : Atem.t unit unit := Atem.emit (Atem.EvError "handled") this.

(** Two commands made and sent, both acknowledgments still out. *)
Definition two_pending : Atem.t unit unit :=
  let '(command, this) := Atem.new_command "AutoTransitionCommand" one_pending in
  (Atem.sendCommand command this).2.

End Sample.

(** * Bytes and big-endian numbers *)

Lemma u8_range (b : byte) : 0 <= Buffer.u8 b <= 255.
Proof. unfold Buffer.u8. pose proof (Byte.to_N_bounded b). lia. Qed.

Lemma u8_byte_of (z : Z) : Buffer.u8 (Buffer.byte_of z) = z mod 256.
Proof.
  unfold Buffer.u8, Buffer.byte_of.
  assert (Hz : 0 <= z mod 256 < 256) by (apply Z.mod_pos_bound; lia).
  destruct (Byte.of_N (Z.to_N (z mod 256))) as [b|] eqn:E; simpl.
  - apply Byte.to_of_N in E. rewrite E. lia.
  - apply Byte.of_N_None_iff in E. lia.
Qed.

Lemma fold_be_bytes (n : nat) (v acc : Z) :
  fold_left (fun acc b => acc * 256 + Buffer.u8 b) (Buffer.be_bytes n v) acc
  = acc * 256 ^ Z.of_nat n + v mod 256 ^ Z.of_nat n.
Proof.
  revert acc. induction n as [|k IH]; intros acc.
  - simpl. rewrite Z.mod_1_r. lia.
  - cbn [Buffer.be_bytes fold_left]. rewrite IH, u8_byte_of.
    rewrite Nat2Z.inj_succ, Z.pow_succ_r by lia.
    rewrite (Z.mul_comm 256 (256 ^ Z.of_nat k)).
    rewrite (Z.rem_mul_r v (256 ^ Z.of_nat k) 256) by lia.
    ring.
Qed.

(** Reading back the [n] bytes written for [v] gives [v] modulo [256 ^ n]. *)
Lemma be_value_be_bytes (n : nat) (v : Z) :
  Buffer.be_value (Buffer.be_bytes n v) = v mod 256 ^ Z.of_nat n.
Proof. unfold Buffer.be_value. rewrite fold_be_bytes. lia. Qed.

Lemma length_be_bytes (n : nat) (v : Z) : length (Buffer.be_bytes n v) = n.
Proof. induction n; simpl; congruence. Qed.

(** ** A write whose value fits does not throw on the value *)

Lemma writeUIntBE_1 buf v off : 0 <= v <= 255 ->
  Buffer.writeUIntBE 1 buf v off = Buffer.blit buf off (Buffer.be_bytes 1 v).
Proof.
  intros H. unfold Buffer.writeUIntBE.
  change (2 ^ (8 * Z.of_nat 1) - 1) with 255.
  destruct (Z.leb_spec 0 v), (Z.leb_spec v 255); try lia. reflexivity.
Qed.

Lemma writeUIntBE_2 buf v off : 0 <= v <= 65535 ->
  Buffer.writeUIntBE 2 buf v off = Buffer.blit buf off (Buffer.be_bytes 2 v).
Proof.
  intros H. unfold Buffer.writeUIntBE.
  change (2 ^ (8 * Z.of_nat 2) - 1) with 65535.
  destruct (Z.leb_spec 0 v), (Z.leb_spec v 65535); try lia. reflexivity.
Qed.

Lemma writeUIntBE_4 buf v off : 0 <= v <= 4294967295 ->
  Buffer.writeUIntBE 4 buf v off = Buffer.blit buf off (Buffer.be_bytes 4 v).
Proof.
  intros H. unfold Buffer.writeUIntBE.
  change (2 ^ (8 * Z.of_nat 4) - 1) with 4294967295.
  destruct (Z.leb_spec 0 v), (Z.leb_spec v 4294967295); try lia. reflexivity.
Qed.

Lemma writeIntBE_4 buf v off : -2147483648 <= v <= 2147483647 ->
  Buffer.writeIntBE 4 buf v off = Buffer.blit buf off (Buffer.be_bytes 4 v).
Proof.
  intros H. unfold Buffer.writeIntBE.
  change (- 2 ^ (8 * Z.of_nat 4 - 1)) with (-2147483648).
  change (2 ^ (8 * Z.of_nat 4 - 1) - 1) with 2147483647.
  destruct (Z.leb_spec (-2147483648) v), (Z.leb_spec v 2147483647); try lia.
  reflexivity.
Qed.

(** ** What each kind of read makes of the bytes a write left *)

Lemma read_u8 v : 0 <= v <= 255 -> Buffer.be_value (Buffer.be_bytes 1 v) = v.
Proof.
  intros. rewrite be_value_be_bytes. change (256 ^ Z.of_nat 1) with 256.
  apply Z.mod_small. lia.
Qed.

Lemma read_u16 v : 0 <= v <= 65535 -> Buffer.be_value (Buffer.be_bytes 2 v) = v.
Proof.
  intros. rewrite be_value_be_bytes. change (256 ^ Z.of_nat 2) with 65536.
  apply Z.mod_small. lia.
Qed.

Lemma read_u32 v :
  0 <= v <= 4294967295 -> Buffer.be_value (Buffer.be_bytes 4 v) = v.
Proof.
  intros. rewrite be_value_be_bytes. change (256 ^ Z.of_nat 4) with 4294967296.
  apply Z.mod_small. lia.
Qed.

(** [readInt8] of a byte written by [writeUInt8]: the same number up to 127
    only. *)
Lemma read_i8 v : 0 <= v <= 127 ->
  Buffer.to_signed (8 * Z.of_nat 1) (Buffer.be_value (Buffer.be_bytes 1 v)) = v.
Proof.
  intros. rewrite read_u8 by lia. unfold Buffer.to_signed.
  change (2 ^ (8 * Z.of_nat 1 - 1)) with 128.
  destruct (Z.ltb_spec v 128); lia.
Qed.

Lemma read_i32 v : -2147483648 <= v <= 2147483647 ->
  Buffer.to_signed (8 * Z.of_nat 4) (Buffer.be_value (Buffer.be_bytes 4 v)) = v.
Proof.
  intros. rewrite be_value_be_bytes. unfold Buffer.to_signed.
  change (256 ^ Z.of_nat 4) with 4294967296.
  change (2 ^ (8 * Z.of_nat 4 - 1)) with 2147483648.
  change (2 ^ (8 * Z.of_nat 4)) with 4294967296.
  destruct (Z.ltb_spec (v mod 4294967296) 2147483648) as [L|L];
    destruct (Z.le_gt_cases 0 v) as [P|P].
  - apply Z.mod_small. lia.
  - exfalso. revert L. rewrite <- (Z.mod_add v 1 4294967296) by lia.
    rewrite Z.mod_small by lia. lia.
  - exfalso. revert L. rewrite Z.mod_small by lia. lia.
  - rewrite <- (Z.mod_add v 1 4294967296) by lia.
    rewrite Z.mod_small by lia. lia.
Qed.

Lemma read_index v : 0 <= v <= 255 ->
  Buffer.u8 (Buffer.byte_of (v / 256 ^ Z.of_nat 0)) = v.
Proof.
  intros. rewrite u8_byte_of. change (256 ^ Z.of_nat 0) with 1.
  rewrite Z.div_1_r. apply Z.mod_small. lia.
Qed.

Lemma read_flag (b : bool) :
  bool_decide
    (Some (Buffer.u8 (Buffer.byte_of (if b then 1 else 0))) = Some 1) = b.
Proof. destruct b; reflexivity. Qed.

(** ** The two parsers *)

Lemma parseNumberBetween_in_range num min max :
  min <= num <= max -> Util.parseNumberBetween num min max = Ok num.
Proof.
  intros H. unfold Util.parseNumberBetween.
  destruct (Z.gtb_spec num max); [lia|].
  destruct (Z.ltb_spec num min); [lia|]. reflexivity.
Qed.

Lemma parseNumberBetween_clamp num min max :
  Util.parseNumberBetween num min max
  = Ok (if num >? max then max else if num <? min then min else num).
Proof.
  unfold Util.parseNumberBetween.
  destruct (num >? max); [reflexivity|]. destruct (num <? min); reflexivity.
Qed.


Lemma parseEnum_member value type :
  value ∈ type -> Util.parseEnum value type = Ok value.
Proof. intros H. unfold Util.parseEnum. rewrite bool_decide_eq_true_2; done. Qed.

(** ** Proof steps for the codec *)

(** Run the buffer operations on a buffer whose length is known, leaving the
    arithmetic on the bytes alone. *)
Ltac buffer_compute :=
  cbn [mbind result_bind mret result_ret Buffer.blit Buffer.slice Buffer.alloc
       Buffer.readUIntBE Buffer.readIntBE Buffer.index Buffer.index_number
       Buffer.set_index Buffer.be_bytes
       replicate length take drop firstn skipn app Nat.leb Nat.add
       insert list_insert lookup list_lookup fmap option_fmap option_map].

(** See the bytes of one written number as such again. *)
Ltac fold_be_bytes :=
  repeat match goal with
  | |- context [Buffer.be_value
                  [Buffer.byte_of (?v / 256 ^ Z.of_nat 3); ?b; ?c; ?d]] =>
      change [Buffer.byte_of (v / 256 ^ Z.of_nat 3); b; c; d]
        with (Buffer.be_bytes 4 v)
  | |- context [Buffer.be_value [Buffer.byte_of (?v / 256 ^ Z.of_nat 1); ?b]] =>
      change [Buffer.byte_of (v / 256 ^ Z.of_nat 1); b]
        with (Buffer.be_bytes 2 v)
  | |- context [Buffer.be_value [Buffer.byte_of (?v / 256 ^ Z.of_nat 0)]] =>
      change [Buffer.byte_of (v / 256 ^ Z.of_nat 0)]
        with (Buffer.be_bytes 1 v)
  end.

(** Name the first 57 bytes of a buffer known to have them. *)
Ltac split_buffer raw H :=
  do 57 (destruct raw as [|? raw]; [cbn [length] in H; lia|]); clear H.

Ltac decode_all :=
  unfold MixEffectKeyDVEUpdateCommand.deserialize;
  unfold Buffer.readUInt8, Buffer.readInt8, Buffer.readUInt16BE,
    Buffer.readUInt32BE, Buffer.readInt32BE;
  buffer_compute.

(** Peel the binds of a computation known to return. *)
Ltac peel H :=
  repeat match type of H with
  | mbind _ ?m = Ok _ =>
      let E := fresh "E" in
      destruct m eqn:E; cbn [mbind result_bind] in H; [|discriminate H]
  end.

Ltac settings_fields :=
  cbn [sizeX sizeY positionX positionY rotation borderEnabled shadowEnabled
       borderBevel borderOuterWidth borderInnerWidth borderOuterSoftness
       borderInnerSoftness borderBevelSoftness borderBevelPosition
       borderOpacity borderHue borderSaturation borderLuma
       lightSourceDirection lightSourceAltitude maskEnabled maskTop
       maskBottom maskLeft maskRight rate].

(** * The command codec *)

(** A payload that holds every byte of the layout and a known bevel decodes
    to a command. *)
Lemma deserialize_returns (BorderBevel : list Z) (rawCommand : list byte) :
  (57 <= length rawCommand)%nat ->
  (exists bevel,
     Buffer.index rawCommand 26 = Some bevel /\ bevel ∈ BorderBevel) ->
  exists cmd,
    MixEffectKeyDVEUpdateCommand.deserialize BorderBevel rawCommand = Ok cmd.
Proof.
  intros Hlen (bevel & Hraw & Hin).
  split_buffer rawCommand Hlen.
  revert Hraw. decode_all. intros [= <-].
  match goal with
  | |- context [Util.parseEnum (Buffer.be_value [?b]) _] =>
      change (Buffer.be_value [b]) with (Buffer.u8 b)
  end.
  rewrite parseEnum_member by assumption.
  rewrite !parseNumberBetween_clamp. buffer_compute.
  eexists. reflexivity.
Qed.

(** A read that returns stayed inside the buffer. *)
Lemma readUIntBE_Ok_length n buf off v :
  Buffer.readUIntBE n buf off = Ok v -> (off + n <= length buf)%nat.
Proof.
  unfold Buffer.readUIntBE, Buffer.slice.
  destruct (Nat.leb_spec (off + n) (length buf)); [auto|discriminate].
Qed.




(** C1. Round trip of the DVE keyer pair: a setter command whose numeric
    fields lie in the ranges the deserializer allows, whose mixEffect and
    upstreamKeyerId lie in 0..3, whose bevel is a value of the enum (held in
    one byte) and whose mask-flag word fits its 32 bits serializes to 64
    bytes, and deserializing these from offset 4 on gives back the same
    mixEffect, upstreamKeyerId and properties. *)
Theorem dve_round_trip (BorderBevel : list Z) (cmd : MixEffectKeyDVECommand.t) :
  0 <= MixEffectKeyDVECommand.flag cmd <= 2 ^ 32 - 1 ->
  0 <= MixEffectKeyDVECommand.mixEffect cmd <= 3 ->
  0 <= MixEffectKeyDVECommand.upstreamKeyerId cmd <= 3 ->
  within_decode_ranges (MixEffectKeyDVECommand.properties cmd) ->
  borderBevel (MixEffectKeyDVECommand.properties cmd) ∈ BorderBevel ->
  0 <= borderBevel (MixEffectKeyDVECommand.properties cmd) <= 255 ->
  exists buffer,
    MixEffectKeyDVECommand.serialize cmd = Ok buffer /\
    length buffer = 64%nat /\
    MixEffectKeyDVEUpdateCommand.deserialize BorderBevel (drop 4 buffer)
    = Ok {| MixEffectKeyDVEUpdateCommand.mixEffect :=
              MixEffectKeyDVECommand.mixEffect cmd;
            MixEffectKeyDVEUpdateCommand.upstreamKeyerId :=
              MixEffectKeyDVECommand.upstreamKeyerId cmd;
            MixEffectKeyDVEUpdateCommand.properties :=
              MixEffectKeyDVECommand.properties cmd |}.
Proof.
  destruct cmd as [flag m k [sX sY pX pY rot bE sE bB bOW bIW bOS bIS bBS bBP
                             bO bH bS bL lD lA mE mT mB mL mR rt]].
  unfold within_decode_ranges, MixEffectKeyDVECommand.serialize.
  cbn [MixEffectKeyDVECommand.flag MixEffectKeyDVECommand.mixEffect
       MixEffectKeyDVECommand.upstreamKeyerId MixEffectKeyDVECommand.properties].
  settings_fields.
  change (2 ^ 32 - 1) with 4294967295.
  change (-1000 * 1000) with (-1000000). change (1000 * 1000) with 1000000.
  intros Hflag Hm Hk Hp Hin Hbevel.
  unfold Buffer.writeUInt8, Buffer.writeUInt16BE, Buffer.writeUInt32BE,
    Buffer.writeInt32BE.
  repeat (first [ rewrite writeUIntBE_1 by lia | rewrite writeUIntBE_2 by lia
                | rewrite writeUIntBE_4 by lia | rewrite writeIntBE_4 by lia ];
          buffer_compute).
  eexists. split; [reflexivity|]. split; [reflexivity|].
  decode_all. fold_be_bytes.
  rewrite !read_i32 by lia. rewrite !read_i8 by lia.
  rewrite !read_u32 by lia. rewrite !read_u16 by lia.
  rewrite !read_u8 by lia. rewrite !read_index by lia.
  rewrite !read_flag.
  rewrite parseEnum_member by assumption.
  rewrite !parseNumberBetween_in_range by lia.
  reflexivity.
Qed.

Lemma dve_round_trip_witness :
  exists buffer,
    MixEffectKeyDVECommand.serialize Sample.setter = Ok buffer /\
    length buffer = 64%nat /\
    MixEffectKeyDVEUpdateCommand.deserialize Sample.BorderBevel (drop 4 buffer)
    = Ok {| MixEffectKeyDVEUpdateCommand.mixEffect := 3;
            MixEffectKeyDVEUpdateCommand.upstreamKeyerId := 1;
            MixEffectKeyDVEUpdateCommand.properties := Sample.settings |}.
Proof.
  apply (dve_round_trip Sample.BorderBevel Sample.setter).
  - cbn. lia.
  - cbn. lia.
  - cbn. lia.
  - unfold within_decode_ranges. cbn. lia.
  - do 2 apply list_elem_of_further. apply list_elem_of_here.
  - cbn. lia.
Defined.


(** C10. The three flags are decoded by equality with 1: whatever the
    payload, when [deserialize] returns a command its borderEnabled,
    shadowEnabled and maskEnabled are true exactly when byte 24, 25 and 47
    is 1; and no value of these bytes keeps a payload of 57 bytes with a
    known bevel from decoding. *)
Theorem flags_decode_by_equality
  (BorderBevel : list Z) (rawCommand : list byte) :
  (forall cmd,
    MixEffectKeyDVEUpdateCommand.deserialize BorderBevel rawCommand = Ok cmd ->
    let p := MixEffectKeyDVEUpdateCommand.properties cmd in
    (borderEnabled p = true <-> Buffer.index rawCommand 24 = Some 1) /\
    (shadowEnabled p = true <-> Buffer.index rawCommand 25 = Some 1) /\
    (maskEnabled p = true <-> Buffer.index rawCommand 47 = Some 1)) /\
  ((57 <= length rawCommand)%nat ->
   (exists bevel,
      Buffer.index rawCommand 26 = Some bevel /\ bevel ∈ BorderBevel) ->
   exists cmd,
     MixEffectKeyDVEUpdateCommand.deserialize BorderBevel rawCommand = Ok cmd).
Proof.
  split; [|apply deserialize_returns].
  intros cmd H. unfold MixEffectKeyDVEUpdateCommand.deserialize in H.
  peel H. injection H as <-.
  cbn [MixEffectKeyDVEUpdateCommand.properties]. cbv zeta. settings_fields.
  repeat split; apply bool_decide_eq_true.
Qed.

(** The payload of 255s: every number is brought to a bound ([readInt8]
    reads 255 as -1, so the softness fields go to 0), the flag byte 1 is
    true, the flag bytes 2 and 255 are false. *)
Example deserialize_out_of_range :
  MixEffectKeyDVEUpdateCommand.deserialize Sample.BorderBevel Sample.out_of_range
  = Ok {| MixEffectKeyDVEUpdateCommand.mixEffect := 3;
          MixEffectKeyDVEUpdateCommand.upstreamKeyerId := 3;
          MixEffectKeyDVEUpdateCommand.properties := {|
            sizeX := 4294967295; sizeY := 4294967295;
            positionX := -1; positionY := -1; rotation := -1;
            borderEnabled := true; shadowEnabled := false; borderBevel := 1;
            borderOuterWidth := 1600; borderInnerWidth := 1600;
            borderOuterSoftness := 0; borderInnerSoftness := 0;
            borderBevelSoftness := 0; borderBevelPosition := 0;
            borderOpacity := 0; borderHue := 3600;
            borderSaturation := 1000; borderLuma := 1000;
            lightSourceDirection := 3599; lightSourceAltitude := 100;
            maskEnabled := false; maskTop := 38000; maskBottom := 38000;
            maskLeft := 52000; maskRight := 52000; rate := 250 |} |}.
Proof. vm_compute. reflexivity. Qed.



Lemma flags_decode_by_equality_witness :
  exists cmd,
    MixEffectKeyDVEUpdateCommand.deserialize
      Sample.BorderBevel Sample.out_of_range = Ok cmd /\
    borderEnabled (MixEffectKeyDVEUpdateCommand.properties cmd) = true /\
    shadowEnabled (MixEffectKeyDVEUpdateCommand.properties cmd) <> true /\
    maskEnabled (MixEffectKeyDVEUpdateCommand.properties cmd) <> true.
Proof.
  destruct (flags_decode_by_equality Sample.BorderBevel Sample.out_of_range)
    as [A B].
  destruct B as [cmd E].
  - vm_compute. lia.
  - exists 1. split; [reflexivity|].
    apply list_elem_of_further, list_elem_of_here.
  - exists cmd. split; [exact E|].
    pose proof (A cmd E) as T. cbv zeta in T.
    destruct T as (Hb & Hs & Hm).
    split; [apply Hb; reflexivity|].
    split; [intros H; apply Hs in H; discriminate H
           |intros H; apply Hm in H; discriminate H].
Defined.

(** A payload one byte short of the last field: the read of [rate] throws. *)
Example deserialize_short_payload :
  MixEffectKeyDVEUpdateCommand.deserialize Sample.BorderBevel
    (take 56 Sample.out_of_range) = Throw RangeError.
Proof. vm_compute. reflexivity. Qed.

(** * The state synchronizer *)

Section StateSynchronizer.

Context {Other Props : Type}.
Variable newMixEffect : Z -> State.MixEffect Other.
Variable newUpstreamKeyer : Z -> State.UpstreamKeyer Other.
Variable DataTransferCommands : list string.
Variable handleCommand :
  Atem.AbstractCommand Other Props -> Atem.t Other Props -> Atem.t Other Props.

Local Abbreviation getMe := (State.getMe newMixEffect).
Local Abbreviation getUpstreamKeyer := (State.getUpstreamKeyer newUpstreamKeyer).
Local Abbreviation applyToState :=
  (MixEffectKeyDVEUpdateCommand.applyToState newMixEffect newUpstreamKeyer).
Local Abbreviation _mutateState :=
  (Atem._mutateState DataTransferCommands handleCommand).
Local Abbreviation object :=
  (MixEffectKeyDVEUpdateCommand_object (Props := Props)
     newMixEffect newUpstreamKeyer).

Lemma getMe_found (v : State.AtemVideoState Other) (index : Z) me :
  State.ME v !! index = Some me -> getMe v index = (v, me).
Proof. intros E. unfold State.getMe. rewrite E. reflexivity. Qed.

Lemma getUpstreamKeyer_found (me : State.MixEffect Other) (index : Z) usk :
  State.upstreamKeyers me !! index = Some usk ->
  getUpstreamKeyer me index = (me, usk).
Proof. intros E. unfold State.getUpstreamKeyer. rewrite E. reflexivity. Qed.

(** The node asked for is in the tree afterwards, made or found. *)
Lemma getMe_lookup (v : State.AtemVideoState Other) (index : Z) :
  State.ME (getMe v index).1 !! index = Some (getMe v index).2.
Proof.
  unfold State.getMe. destruct (State.ME v !! index) eqn:E; simpl.
  - exact E.
  - apply lookup_insert_eq.
Qed.

(** C3. Applying a decoded notifier a second time changes nothing: from the
    tree the first application left, [applyToState] returns that same tree
    and the same change path as the first application. *)
Theorem applyToState_idempotent
  (cmd : MixEffectKeyDVEUpdateCommand.t) (state : State.AtemState Other) :
  applyToState cmd (applyToState cmd state).1 = applyToState cmd state.
Proof.
  unfold MixEffectKeyDVEUpdateCommand.applyToState at 2 3.
  destruct (getMe (State.video state) _) as [video1 me].
  destruct (getUpstreamKeyer me _) as [me1 usk].
  cbn [fst].
  unfold MixEffectKeyDVEUpdateCommand.applyToState.
  cbn [State.video State.info State.state_other].
  erewrite getMe_found by (cbn [State.ME]; apply lookup_insert_eq).
  erewrite getUpstreamKeyer_found
    by (cbn [State.upstreamKeyers]; apply lookup_insert_eq).
  cbn [State.ME State.upstreamKeyers State.video_other State.mixEffect_other
       State.upstreamKeyer_other].
  rewrite !insert_insert_eq. reflexivity.
Qed.

(** A command that is no data transfer command is not handed to the data
    transfer manager. *)
Lemma not_a_data_transfer_command
  (command : Atem.AbstractCommand Other Props) (names : list string)
  (this : Atem.t Other Props) :
  Atem.constructor_name command ∉ names ->
  foldl (fun this commandName =>
           if String.eqb (Atem.constructor_name command) commandName
           then handleCommand command this else this) this names = this.
Proof.
  revert this. induction names as [|name names IH]; intros this Hnot;
    [reflexivity|].
  apply not_elem_of_cons in Hnot as [Hne Hnot].
  cbn [foldl].
  destruct (String.eqb_spec (Atem.constructor_name command) name) as [E|_];
    [contradiction|].
  apply IH, Hnot.
Qed.

(** One stateChanged event per path, in order, each with the state as it is
    after the command. *)
Lemma emit_each_path (this : Atem.t Other Props) (paths : list string) :
  let this' :=
    foldl (fun this path =>
             Atem.emit (Atem.EvStateChanged (Atem.state this) path) this)
          this paths in
  Atem.state this' = Atem.state this /\
  Atem.emitted this' =
    Atem.emitted this ++ map (Atem.EvStateChanged (Atem.state this)) paths.
Proof.
  revert this. induction paths as [|path paths IH]; intros this; cbn [foldl map].
  - split; [reflexivity|]. symmetry. apply app_nil_r.
  - specialize
      (IH (Atem.emit (Atem.EvStateChanged (Atem.state this) path) this)).
    cbv zeta in IH. destruct IH as [IH1 IH2].
    cbn [Atem.emit Atem.state Atem.emitted] in *.
    split; [exact IH1|]. rewrite IH2, <- app_assoc. reflexivity.
Qed.

(** Emitting touches neither the sent-queue nor the two stores. *)
Lemma emit_each_path_tracker (this : Atem.t Other Props) (paths : list string) :
  let this' :=
    foldl (fun this path =>
             Atem.emit (Atem.EvStateChanged (Atem.state this) path) this)
          this paths in
  Atem._sentQueue this' = Atem._sentQueue this /\
  Atem.commands this' = Atem.commands this /\
  Atem.promises this' = Atem.promises this.
Proof.
  revert this. induction paths as [|path paths IH]; intros this; cbn [foldl].
  - repeat split.
  - apply (IH (Atem.emit (Atem.EvStateChanged (Atem.state this) path) this)).
Qed.

(** Nor does a received command that is no data transfer command. *)
Lemma on_receivedStateChange_tracker
  (command : Atem.AbstractCommand Other Props) (this : Atem.t Other Props) :
  Atem.constructor_name command ∉ DataTransferCommands ->
  let this' :=
    Atem.on_receivedStateChange DataTransferCommands handleCommand
      command this in
  Atem._sentQueue this' = Atem._sentQueue this /\
  Atem.commands this' = Atem.commands this /\
  Atem.promises this' = Atem.promises this.
Proof.
  intros Hname. unfold Atem.on_receivedStateChange, Atem._mutateState.
  rewrite not_a_data_transfer_command by exact Hname.
  destruct (Atem.applyToState command) as [apply|]; [|repeat split].
  cbn [Atem.emit Atem.state].
  destruct (apply (Atem.state this)) as [state' changePaths].
  match goal with
  | |- context [foldl ?f ?a ?paths] =>
      apply (emit_each_path_tracker a paths)
  end.
Qed.

(** What [_mutateState] emits for any command that is no data transfer
    command and has an [applyToState]. *)
Lemma _mutateState_emits
  (command : Atem.AbstractCommand Other Props) apply (this : Atem.t Other Props) :
  Atem.constructor_name command ∉ DataTransferCommands ->
  Atem.applyToState command = Some apply ->
  let paths :=
    match (apply (Atem.state this)).2 with
    | Atem.PathArray paths => paths
    | Atem.OnePath path => [path]
    end in
  Atem.state (_mutateState command this) = (apply (Atem.state this)).1 /\
  Atem.emitted (_mutateState command this)
  = Atem.emitted this
    ++ map (Atem.EvStateChanged (apply (Atem.state this)).1) paths.
Proof.
  intros Hname Happly paths. subst paths. unfold Atem._mutateState.
  rewrite not_a_data_transfer_command by exact Hname.
  rewrite Happly. destruct (apply (Atem.state this)) as [state' changePaths].
  cbn [fst snd].
  apply (emit_each_path (Atem.set_state state' this)).
Qed.

(** C8. Frame of the DVE notifier. With m and k the command's mixEffect and
    upstreamKeyerId: [applyToState] returns the one path
    video.ME.m.upstreamKeyers.k.dveSettings; the device info, the other
    parts of the state and of the video state, and every mix effect other
    than m are as before; in mix effect m (as it was, or as lazily made) the
    other fields and every keyer other than k are as before; keyer k holds
    the command's properties as its dveSettings and keeps its other fields.
    [_mutateState] of the command (which is no data transfer command) then
    leaves that state in place and emits one stateChanged event, for that
    path. *)
Theorem applyToState_frame
  (cmd : MixEffectKeyDVEUpdateCommand.t) (this : Atem.t Other Props) :
  Atem.constructor_name (object cmd) ∉ DataTransferCommands ->
  let m := MixEffectKeyDVEUpdateCommand.mixEffect cmd in
  let k := MixEffectKeyDVEUpdateCommand.upstreamKeyerId cmd in
  let state := Atem.state this in
  let state' := (applyToState cmd state).1 in
  let me0 := default (newMixEffect m) (State.ME (State.video state) !! m) in
  let usk0 := default (newUpstreamKeyer k) (State.upstreamKeyers me0 !! k) in
  (applyToState cmd state).2
    = "video.ME." +:+ pretty m +:+ ".upstreamKeyers." +:+ pretty k
        +:+ ".dveSettings" /\
  State.info state' = State.info state /\
  State.state_other state' = State.state_other state /\
  State.video_other (State.video state') = State.video_other (State.video state) /\
  (forall m', m' ≠ m ->
     State.ME (State.video state') !! m' = State.ME (State.video state) !! m') /\
  (exists me',
     State.ME (State.video state') !! m = Some me' /\
     State.mixEffect_other me' = State.mixEffect_other me0 /\
     (forall k', k' ≠ k ->
        State.upstreamKeyers me' !! k' = State.upstreamKeyers me0 !! k') /\
     State.upstreamKeyers me' !! k
       = Some {| State.dveSettings :=
                   Some (MixEffectKeyDVEUpdateCommand.properties cmd);
                 State.upstreamKeyer_other :=
                   State.upstreamKeyer_other usk0 |}) /\
  Atem.state (_mutateState (object cmd) this) = state' /\
  Atem.emitted (_mutateState (object cmd) this)
    = Atem.emitted this
      ++ [Atem.EvStateChanged state' (applyToState cmd state).2].
Proof.
  intros Hname m k state state' me0 usk0.
  assert (Hmut : Atem.state (_mutateState (object cmd) this) = state' /\
    Atem.emitted (_mutateState (object cmd) this)
    = Atem.emitted this
      ++ [Atem.EvStateChanged state' (applyToState cmd state).2]).
  { pose proof (_mutateState_emits (object cmd) _ this Hname eq_refl) as H.
    cbv beta zeta in H. fold state in H. subst state'.
    destruct (applyToState cmd state) as [s' path]. exact H. }
  subst state'. revert Hmut.
  unfold MixEffectKeyDVEUpdateCommand.applyToState, State.getMe,
    State.getUpstreamKeyer.
  subst usk0 me0. fold m k.
  destruct (State.ME (State.video state) !! m) as [me|] eqn:Eme;
  cbn [default from_option id];
  [destruct (State.upstreamKeyers me !! k) as [usk|] eqn:Eusk
  |destruct (State.upstreamKeyers (newMixEffect m) !! k) as [usk|] eqn:Eusk];
  cbn [default from_option id fst snd State.info State.state_other State.video
       State.video_other State.ME State.upstreamKeyers State.mixEffect_other
       State.upstreamKeyer_other];
  intros [Hs He];
  (split; [reflexivity|]); (split; [reflexivity|]); (split; [reflexivity|]);
  (split; [reflexivity|]);
  (split; [intros m' Hm'; rewrite ?lookup_insert_ne by congruence; reflexivity|]);
  (split; [|split; assumption]);
  (eexists; split; [apply lookup_insert_eq|]);
  cbn [State.upstreamKeyers State.mixEffect_other];
  (split; [reflexivity|]);
  (split; [intros k' Hk'; rewrite ?lookup_insert_ne by congruence; reflexivity|]);
  rewrite ?insert_insert_eq, lookup_insert_eq, ?Eusk; reflexivity.
Qed.

End StateSynchronizer.

Lemma applyToState_frame_witness :
  ("MixEffectKeyDVEUpdateCommand" ∉ Sample.DataTransferCommands) /\
  Atem.emitted
    (Atem._mutateState Sample.DataTransferCommands Sample.handleCommand
       (MixEffectKeyDVEUpdateCommand_object
          Sample.newMixEffect Sample.newUpstreamKeyer Sample.notifier)
       Sample.atem0)
  = [Atem.EvStateChanged
       (MixEffectKeyDVEUpdateCommand.applyToState
          Sample.newMixEffect Sample.newUpstreamKeyer Sample.notifier
          Sample.state0).1
       "video.ME.2.upstreamKeyers.1.dveSettings"].
Proof.
  assert (H : "MixEffectKeyDVEUpdateCommand" ∉ Sample.DataTransferCommands).
  { unfold Sample.DataTransferCommands. intros Hin.
    apply list_elem_of_In in Hin. cbn in Hin.
    destruct Hin as [E|[E|[]]]; discriminate E. }
  split; [exact H|].
  pose proof (applyToState_frame Sample.newMixEffect Sample.newUpstreamKeyer
                Sample.DataTransferCommands Sample.handleCommand
                Sample.notifier Sample.atem0 H) as T.
  cbv zeta in T. destruct T as (_ & _ & _ & _ & _ & _ & _ & He).
  exact He.
Defined.

(** The tree after the sample notifier: mix effect 2 and its keyer 1 were
    made on the way, and nothing else. *)
Example applyToState_sample :
  let state' :=
    (MixEffectKeyDVEUpdateCommand.applyToState
       Sample.newMixEffect Sample.newUpstreamKeyer Sample.notifier
       Sample.state0).1 in
  (State.upstreamKeyers <$> (State.ME (State.video state') !! 2))
  = Some {[ 1 := {| State.dveSettings := Some Sample.settings;
                    State.upstreamKeyer_other := tt |} ]} /\
  State.ME (State.video state') !! 0 = None.
Proof. split; reflexivity. Qed.

(** * The acknowledgment tracker *)

Section Tracker.

Context {Other Props : Type}.
Implicit Types (this : Atem.t Other Props) (ps : list Atem.PromiseState).

(** ** Promises settle once *)

Lemma settle_other p s ps p' : p' ≠ p -> Atem.settle p s ps !! p' = ps !! p'.
Proof.
  intros Hne. unfold Atem.settle.
  destruct (ps !! p) as [[| |]|]; try reflexivity.
  apply list_lookup_insert_ne. congruence.
Qed.

Lemma settle_settled p s ps p' st :
  ps !! p' = Some st -> st ≠ Atem.Pending -> Atem.settle p s ps !! p' = Some st.
Proof.
  intros Hst Hne. unfold Atem.settle.
  destruct (ps !! p) as [[| |]|] eqn:E; try exact Hst.
  rewrite list_lookup_insert_ne; [exact Hst|]. intros ->. congruence.
Qed.

Lemma settle_pending p s ps :
  ps !! p = Some Atem.Pending -> Atem.settle p s ps !! p = Some s.
Proof.
  intros E. unfold Atem.settle. rewrite E.
  apply list_lookup_insert_eq. eapply lookup_lt_Some, E.
Qed.

(** ** The two settlers, case by case *)

Lemma _resolveCommand_unknown this trackingId :
  Atem._sentQueue this !! trackingId = None ->
  Atem._resolveCommand trackingId this = Ok this.
Proof. intros E. unfold Atem._resolveCommand. rewrite E. reflexivity. Qed.

Lemma _rejectCommand_unknown this trackingId :
  Atem._sentQueue this !! trackingId = None ->
  Atem._rejectCommand trackingId this = Ok this.
Proof. intros E. unfold Atem._rejectCommand. rewrite E. reflexivity. Qed.

Lemma _resolveCommand_known this trackingId c cmd p :
  Atem._sentQueue this !! trackingId = Some c ->
  Atem.commands this !! c = Some cmd -> Atem.resolve cmd = Some p ->
  Atem._resolveCommand trackingId this
  = Ok (Atem.set_sentQueue (delete trackingId (Atem._sentQueue this))
          (Atem.set_promises
             (Atem.settle p (Atem.Fulfilled (Atem.VCommand c))
                (Atem.promises this)) this)).
Proof.
  intros Eq Ec Er. unfold Atem._resolveCommand. rewrite Eq, Ec. cbn.
  rewrite Er. reflexivity.
Qed.

Lemma _rejectCommand_known this trackingId c cmd p :
  Atem._sentQueue this !! trackingId = Some c ->
  Atem.commands this !! c = Some cmd -> Atem.reject cmd = Some p ->
  Atem._rejectCommand trackingId this
  = Ok (Atem.set_sentQueue (delete trackingId (Atem._sentQueue this))
          (Atem.set_promises
             (Atem.settle p (Atem.Rejected (Atem.VCommand c))
                (Atem.promises this)) this)).
Proof.
  intros Eq Ec Er. unfold Atem._rejectCommand. rewrite Eq, Ec. cbn.
  rewrite Er. reflexivity.
Qed.

Lemma settle_already_settled p s ps st :
  ps !! p = Some st -> st ≠ Atem.Pending -> Atem.settle p s ps = ps.
Proof.
  intros E Hne. unfold Atem.settle. rewrite E.
  destruct st; [contradiction|reflexivity|reflexivity].
Qed.

(** C4 (as the code has it). Settlement happens once. In a state where
    every queued command carries its settle functions, [_resolveCommand] and
    [_rejectCommand] return; afterwards the identifier is gone from the
    sent-queue and no other entry has changed; the promise of a command
    registered under the identifier is fulfilled, respectively rejected,
    with that command; a promise that was settled before is as it was; only
    the promise the queued command names may have changed, and when that
    promise was settled already (by a failed send) no promise changes at
    all, though the entry is removed; for an identifier that is not in the
    queue the whole object is unchanged; and a second delivery for the same
    identifier, of either kind, changes nothing. *)
Theorem settlement_exactly_once this trackingId :
  Atem.settlers_installed this ->
  exists this1 this2,
    Atem._resolveCommand trackingId this = Ok this1 /\
    Atem._rejectCommand trackingId this = Ok this2 /\
    Atem._sentQueue this1 = delete trackingId (Atem._sentQueue this) /\
    Atem._sentQueue this2 = delete trackingId (Atem._sentQueue this) /\
    (forall c p, Atem.registered this trackingId c p ->
       Atem.promises this1 !! p = Some (Atem.Fulfilled (Atem.VCommand c)) /\
       Atem.promises this2 !! p = Some (Atem.Rejected (Atem.VCommand c))) /\
    (forall p st, Atem.promises this !! p = Some st -> st ≠ Atem.Pending ->
       Atem.promises this1 !! p = Some st /\
       Atem.promises this2 !! p = Some st) /\
    (forall c cmd, Atem._sentQueue this !! trackingId = Some c ->
       Atem.commands this !! c = Some cmd ->
       (forall p, Atem.resolve cmd ≠ Some p ->
          Atem.promises this1 !! p = Atem.promises this !! p) /\
       (forall p, Atem.reject cmd ≠ Some p ->
          Atem.promises this2 !! p = Atem.promises this !! p)) /\
    (forall c cmd p st, Atem._sentQueue this !! trackingId = Some c ->
       Atem.commands this !! c = Some cmd ->
       Atem.promises this !! p = Some st -> st ≠ Atem.Pending ->
       (Atem.resolve cmd = Some p ->
          Atem.promises this1 = Atem.promises this) /\
       (Atem.reject cmd = Some p ->
          Atem.promises this2 = Atem.promises this)) /\
    (Atem._sentQueue this !! trackingId = None ->
       this1 = this /\ this2 = this) /\
    Atem._resolveCommand trackingId this1 = Ok this1 /\
    Atem._rejectCommand trackingId this1 = Ok this1 /\
    Atem._resolveCommand trackingId this2 = Ok this2 /\
    Atem._rejectCommand trackingId this2 = Ok this2.
Proof.
  intros Hwf.
  destruct (Atem._sentQueue this !! trackingId) as [c|] eqn:Eq.
  - destruct (Hwf _ _ Eq) as (cmd & p & q & Ec & Er & Ej).
    eexists _, _.
    split; [eapply _resolveCommand_known; eassumption|].
    split; [eapply _rejectCommand_known; eassumption|].
    cbn [Atem.set_sentQueue Atem.set_promises Atem._sentQueue Atem.promises].
    split; [reflexivity|]. split; [reflexivity|].
    split.
    { intros c' p' (Eq' & (cmd' & Ec' & Er' & Ej') & Ep').
      assert (c' = c) as -> by congruence.
      assert (cmd' = cmd) as -> by congruence.
      assert (p = p') as -> by congruence.
      assert (q = p') as -> by congruence.
      split; apply settle_pending, Ep'. }
    split; [intros p' st Hst Hne; split; apply settle_settled; assumption|].
    split.
    { intros c' cmd' [= <-]. rewrite Ec. intros [= <-].
      split; intros p' Hne; apply settle_other; congruence. }
    split.
    { intros c' cmd' p' st [= <-]. rewrite Ec. intros [= <-] Hst Hne.
      split; intros E.
      - assert (p = p') as -> by congruence.
        eapply settle_already_settled; eassumption.
      - assert (q = p') as -> by congruence.
        eapply settle_already_settled; eassumption. }
    split; [discriminate|].
    repeat split;
      first [apply _resolveCommand_unknown | apply _rejectCommand_unknown];
      apply lookup_delete_eq.
  - exists this, this.
    rewrite _resolveCommand_unknown, _rejectCommand_unknown by exact Eq.
    rewrite delete_id by exact Eq.
    split; [reflexivity|]. split; [reflexivity|].
    split; [reflexivity|]. split; [reflexivity|].
    split; [intros c p (Eq' & _); congruence|].
    split; [intros p st Hst _; split; exact Hst|].
    split; [intros c cmd [=]|].
    split; [intros c cmd p st [=]|].
    split; [intros _; split; reflexivity|].
    repeat split; reflexivity.
Qed.

(** ** sendCommand *)

Lemma sendCommand_unfold this command :
  Atem.sendCommand command this
  = (length (Atem.promises this),
     {| Atem.state := Atem.state this;
        Atem.socket :=
          {| AtemSocket._nextCommandTrackingId :=
               AtemSocket._nextCommandTrackingId (Atem.socket this) + 1;
             AtemSocket._localPacketId :=
               AtemSocket._localPacketId (Atem.socket this);
             AtemSocket._sessionId := AtemSocket._sessionId (Atem.socket this);
             AtemSocket._queued :=
               AtemSocket._queued (Atem.socket this)
               ++ [(AtemSocket._nextCommandTrackingId (Atem.socket this) + 1,
                    command)] |};
        Atem._sentQueue :=
          <[AtemSocket._nextCommandTrackingId (Atem.socket this) + 1 := command]>
            (Atem._sentQueue this);
        Atem.commands :=
          alter (Atem.with_settlers (length (Atem.promises this))) command
            (Atem.commands this);
        Atem.promises := Atem.promises this ++ [Atem.Pending];
        Atem.emitted := Atem.emitted this |}).
Proof. reflexivity. Qed.

(** A registered command's promise is fulfilled, or rejected, with the
    command. *)
Lemma registered_settles this trackingId c p :
  Atem.registered this trackingId c p ->
  exists this1 this2,
    Atem._resolveCommand trackingId this = Ok this1 /\
    Atem.promises this1 !! p = Some (Atem.Fulfilled (Atem.VCommand c)) /\
    Atem._rejectCommand trackingId this = Ok this2 /\
    Atem.promises this2 !! p = Some (Atem.Rejected (Atem.VCommand c)).
Proof.
  intros (Eq & (cmd & Ec & Er & Ej) & Ep).
  eexists _, _.
  split; [eapply _resolveCommand_known; eassumption|].
  split; [apply settle_pending, Ep|].
  split; [eapply _rejectCommand_known; eassumption|].
  apply settle_pending, Ep.
Qed.

(** C9 (as the code has it). The promise of [sendCommand] settles with the
    command object itself while the command is registered with it:
    [sendCommand] of a command object leaves it registered under the
    tracking identifier it took, waiting on the promise it returned; and in
    any later state where it still is, the acknowledgment of that identifier
    fulfils the promise with that very object, and its timeout rejects the
    promise with that very object. *)
Theorem sendCommand_settles_with_command this command :
  (command < length (Atem.commands this))%nat ->
  let trackingId := AtemSocket._nextCommandTrackingId (Atem.socket this) + 1 in
  let p := (Atem.sendCommand command this).1 in
  let this' := (Atem.sendCommand command this).2 in
  Atem.registered this' trackingId command p /\
  forall later : Atem.t Other Props,
    Atem.registered later trackingId command p ->
    exists resolved rejected,
      Atem._resolveCommand trackingId later = Ok resolved /\
      Atem.promises resolved !! p
        = Some (Atem.Fulfilled (Atem.VCommand command)) /\
      Atem._rejectCommand trackingId later = Ok rejected /\
      Atem.promises rejected !! p
        = Some (Atem.Rejected (Atem.VCommand command)).
Proof.
  intros Hc trackingId p this'. subst p this'.
  rewrite sendCommand_unfold. cbn [fst snd].
  split; [|intros later; apply registered_settles].
  unfold Atem.registered. cbn [Atem._sentQueue Atem.commands Atem.promises].
  split; [apply lookup_insert_eq|]. split.
  - destruct (lookup_lt_is_Some_2 (Atem.commands this) command Hc)
      as [cmd Ecmd].
    eexists. rewrite list_lookup_alter_eq, Ecmd. cbn.
    split; [reflexivity|]. split; reflexivity.
  - apply list_lookup_middle. reflexivity.
Qed.

(** C5. The tracking identifier does not depend on the wire: whatever the
    wire sequence counter and the session of the socket are (no session
    included), [sendCommand] registers the command under the same
    identifier, the successor of the socket's tracking counter, hands the
    socket the same queue entry, and leaves the wire counter and the session
    as they were. *)
Theorem trackingId_independent_of_wire
  this command (seq : Z) (session : option Z) :
  let rewired :=
    Atem.set_socket
      {| AtemSocket._nextCommandTrackingId :=
           AtemSocket._nextCommandTrackingId (Atem.socket this);
         AtemSocket._localPacketId := seq;
         AtemSocket._sessionId := session;
         AtemSocket._queued := AtemSocket._queued (Atem.socket this) |} this in
  let trackingId := AtemSocket._nextCommandTrackingId (Atem.socket this) + 1 in
  let sent := (Atem.sendCommand command this).2 in
  let sent' := (Atem.sendCommand command rewired).2 in
  Atem._sentQueue sent = <[trackingId := command]> (Atem._sentQueue this) /\
  Atem._sentQueue sent' = Atem._sentQueue sent /\
  AtemSocket._queued (Atem.socket sent') = AtemSocket._queued (Atem.socket sent) /\
  AtemSocket._nextCommandTrackingId (Atem.socket sent') = trackingId /\
  AtemSocket._nextCommandTrackingId (Atem.socket sent) = trackingId /\
  AtemSocket._localPacketId (Atem.socket sent') = seq /\
  AtemSocket._sessionId (Atem.socket sent') = session.
Proof.
  intros rewired trackingId sent sent'. subst sent sent' rewired.
  rewrite !sendCommand_unfold. repeat split.
Qed.

Section Gating.

Variable V8_0 : Z.

(** C7. Version gating: [setSuperSourceProperties] sends the new command
    object, registered under the next tracking identifier and carrying the
    given properties; when the state's apiVersion is at least V8_0 it is a
    SuperSourcePropertiesV8Command with the given ssrcId, otherwise it is
    the legacy SuperSourcePropertiesCommand, with no ssrcId. *)
Theorem setSuperSourceProperties_gating this (newProps : Props) (ssrcId : Z) :
  let apiVersion := State.apiVersion (State.info (Atem.state this)) in
  let sent := (Atem.setSuperSourceProperties V8_0 newProps ssrcId this).2 in
  let trackingId := AtemSocket._nextCommandTrackingId (Atem.socket this) + 1 in
  let command := length (Atem.commands this) in
  last (AtemSocket._queued (Atem.socket sent)) = Some (trackingId, command) /\
  Atem._sentQueue sent !! trackingId = Some command /\
  exists cmd,
    Atem.commands sent !! command = Some cmd /\
    Atem.updates cmd = [newProps] /\
    (V8_0 <= apiVersion ->
       Atem.constructor_name cmd = "SuperSourcePropertiesV8Command" /\
       Atem.ssrcId cmd = Some ssrcId) /\
    (apiVersion < V8_0 ->
       Atem.constructor_name cmd = "SuperSourcePropertiesCommand" /\
       Atem.ssrcId cmd = None).
Proof.
  intros apiVersion sent trackingId command. subst sent.
  unfold Atem.setSuperSourceProperties. fold apiVersion.
  destruct (Z.geb_spec apiVersion V8_0) as [Hv|Hv];
  cbn [Atem.new_command]; rewrite sendCommand_unfold;
  cbn [snd Atem.set_commands Atem.commands Atem.socket Atem._sentQueue
       Atem.promises AtemSocket._queued AtemSocket._nextCommandTrackingId];
  fold trackingId command;
  (split; [apply last_snoc|]); (split; [apply lookup_insert_eq|]);
  rewrite !list_lookup_alter_eq, list_lookup_middle by reflexivity;
  (eexists; split; [reflexivity|]); cbn;
  (split; [reflexivity|]); split; intros; first [lia | split; reflexivity].
Qed.

End Gating.

(** C6 (as the code has it). The socket's disconnect event only makes the
    object emit disconnected: the sent-queue, the promises, the command
    objects, the state and the socket are as before. *)
Theorem disconnect_only_emits this :
  let after := Atem.on_disconnect this in
  Atem._sentQueue after = Atem._sentQueue this /\
  Atem.promises after = Atem.promises this /\
  Atem.commands after = Atem.commands this /\
  Atem.state after = Atem.state this /\
  Atem.socket after = Atem.socket this /\
  Atem.emitted after = Atem.emitted this ++ [Atem.EvDisconnected].
Proof. repeat split. Qed.

(** ** The invariant along any run *)

Variable DataTransferCommands : list string.
Variable handleCommand :
  Atem.AbstractCommand Other Props -> Atem.t Other Props -> Atem.t Other Props.

Local Abbreviation step := (Atem.step DataTransferCommands handleCommand).

Lemma settlers_installed_new (state0 : State.AtemState Other) socket0 :
  Atem.settlers_installed (Atem.new (Props := Props) state0 socket0).
Proof. intros t c H. cbn in H. rewrite lookup_empty in H. discriminate. Qed.

Lemma settlers_installed_commands
  this (cs : list (Atem.AbstractCommand Other Props)) :
  (forall c cmd, Atem.commands this !! c = Some cmd ->
     exists cmd', cs !! c = Some cmd' /\
       (is_Some (Atem.resolve cmd) -> is_Some (Atem.resolve cmd')) /\
       (is_Some (Atem.reject cmd) -> is_Some (Atem.reject cmd'))) ->
  Atem.settlers_installed this ->
  Atem.settlers_installed (Atem.set_commands cs this).
Proof.
  intros Hcs Hwf t c Hq. cbn in Hq.
  destruct (Hwf t c Hq) as (cmd & p & q & Ec & Er & Ej).
  destruct (Hcs c cmd Ec) as (cmd' & Ec' & Hr & Hj).
  destruct Hr as [p' Hp']; [rewrite Er; eauto|].
  destruct Hj as [q' Hq']; [rewrite Ej; eauto|].
  exists cmd', p', q'. cbn. auto.
Qed.

Lemma settlers_installed_new_command this name :
  Atem.settlers_installed this ->
  Atem.settlers_installed (Atem.new_command name this).2.
Proof.
  apply settlers_installed_commands.
  intros c cmd E. exists cmd. split; [apply lookup_app_l_Some, E|auto].
Qed.

Lemma settlers_installed_sendCommand this command :
  (command < length (Atem.commands this))%nat ->
  Atem.settlers_installed this ->
  Atem.settlers_installed (Atem.sendCommand command this).2.
Proof.
  intros Hc Hwf t c. cbn.
  destruct (lookup_lt_is_Some_2 _ _ Hc) as [cmd0 E0].
  destruct (decide (c = command)) as [->|Hne].
  - intros _. rewrite list_lookup_alter_eq, E0. cbn. eauto 6.
  - rewrite list_lookup_alter_ne by congruence.
    rewrite lookup_insert. case_decide; [congruence|].
    apply Hwf.
Qed.

Lemma settlers_installed_smaller this (q : gmap Z nat) ps :
  q ⊆ Atem._sentQueue this ->
  Atem.settlers_installed this ->
  Atem.settlers_installed (Atem.set_sentQueue q (Atem.set_promises ps this)).
Proof.
  intros Hsub Hwf t c Hq. cbn in *.
  apply Hwf with t. eapply lookup_weaken; eassumption.
Qed.

Lemma settlers_installed_resolve this trackingId this' :
  Atem._resolveCommand trackingId this = Ok this' ->
  Atem.settlers_installed this -> Atem.settlers_installed this'.
Proof.
  unfold Atem._resolveCommand.
  destruct (Atem._sentQueue this !! trackingId) as [c|];
    [|intros [= <-]; auto].
  destruct (Atem.commands this !! c ≫= Atem.resolve); [|discriminate].
  intros [= <-]. apply settlers_installed_smaller, delete_subseteq.
Qed.

Lemma settlers_installed_reject this trackingId this' :
  Atem._rejectCommand trackingId this = Ok this' ->
  Atem.settlers_installed this -> Atem.settlers_installed this'.
Proof.
  unfold Atem._rejectCommand.
  destruct (Atem._sentQueue this !! trackingId) as [c|];
    [|intros [= <-]; auto].
  destruct (Atem.commands this !! c ≫= Atem.reject); [|discriminate].
  intros [= <-]. apply settlers_installed_smaller, delete_subseteq.
Qed.

Lemma settlers_installed_same this this' :
  Atem._sentQueue this' = Atem._sentQueue this ->
  Atem.commands this' = Atem.commands this ->
  Atem.settlers_installed this -> Atem.settlers_installed this'.
Proof.
  intros Eq Ec Hwf t c. rewrite Eq, Ec. apply Hwf.
Qed.

Lemma settlers_installed_step this this' :
  step this this' ->
  Atem.settlers_installed this -> Atem.settlers_installed this'.
Proof.
  intros Hstep Hwf. destruct Hstep as
    [name this|f command this Hf|command this Hc|p e this
    |trackingId this this' H|trackingId this this' H|command this Hname
    |e this|this|this].
  - apply settlers_installed_new_command, Hwf.
  - apply settlers_installed_commands; [|exact Hwf].
    intros c cmd E. destruct (decide (command = c)) as [->|Hne].
    + exists (f cmd). rewrite list_lookup_alter_eq, E.
      destruct (Hf cmd) as [-> ->]. auto.
    + exists cmd. rewrite list_lookup_alter_ne by exact Hne. auto.
  - apply settlers_installed_sendCommand; assumption.
  - exact Hwf.
  - eapply settlers_installed_resolve; eassumption.
  - eapply settlers_installed_reject; eassumption.
  - destruct (on_receivedStateChange_tracker DataTransferCommands
                handleCommand command this Hname) as (Eq & Ec & _).
    eapply settlers_installed_same; eassumption.
  - exact Hwf.
  - exact Hwf.
  - exact Hwf.
Qed.

(** X1. Every state the object reaches from its constructor has the settle
    functions of its queued commands in place: an acknowledgment or a
    timeout never finds a command it cannot settle. *)
Theorem settlers_installed_reachable
  (state0 : State.AtemState Other) socket0 this :
  rtc step (Atem.new state0 socket0) this -> Atem.settlers_installed this.
Proof.
  revert this. apply rtc_ind_r.
  - apply settlers_installed_new.
  - intros a b _ Hab IH. eapply settlers_installed_step; eassumption.
Qed.

Lemma settled_stays_step this this' p st :
  step this this' ->
  Atem.promises this !! p = Some st -> st ≠ Atem.Pending ->
  Atem.promises this' !! p = Some st.
Proof.
  intros Hstep Hp Hst. destruct Hstep as
    [name this|f command this Hf|command this Hc|p' e this
    |trackingId this this' H|trackingId this this' H|command this Hname
    |e this|this|this];
    try exact Hp.
  - cbn. apply lookup_app_l_Some, Hp.
  - cbn. apply settle_settled; assumption.
  - revert H. unfold Atem.on_CommandAcknowledged, Atem._resolveCommand.
    destruct (Atem._sentQueue this !! trackingId) as [c|];
      [|intros [= <-]; exact Hp].
    destruct (Atem.commands this !! c ≫= Atem.resolve); [|discriminate].
    intros [= <-]. cbn. apply settle_settled; assumption.
  - revert H. unfold Atem.on_CommandTimeout, Atem._rejectCommand.
    destruct (Atem._sentQueue this !! trackingId) as [c|];
      [|intros [= <-]; exact Hp].
    destruct (Atem.commands this !! c ≫= Atem.reject); [|discriminate].
    intros [= <-]. cbn. apply settle_settled; assumption.
  - destruct (on_receivedStateChange_tracker DataTransferCommands
                handleCommand command this Hname) as (_ & _ & Ep).
    rewrite Ep. exact Hp.
Qed.

(** X2. Once a promise is settled, no run of calls and socket events settles it
    again or differently. *)
Theorem settled_stays this this' p st :
  rtc step this this' ->
  Atem.promises this !! p = Some st -> st ≠ Atem.Pending ->
  Atem.promises this' !! p = Some st.
Proof.
  intros Hrun. induction Hrun as [|a b c Hab Hbc IH]; [auto|].
  intros Hp Hst. apply IH; [|exact Hst].
  eapply settled_stays_step; eassumption.
Qed.

End Tracker.

(** * The tracker on concrete runs *)

Lemma one_pending_reachable :
  rtc (Atem.step Sample.DataTransferCommands Sample.handleCommand)
    Sample.atem0 Sample.one_pending.
Proof.
  apply rtc_l with Sample.one_made; [apply (Atem.step_new _ _ "CutCommand")|].
  apply rtc_once.
  apply (Atem.step_sendCommand _ _ 0 Sample.one_made). cbn. lia.
Qed.

Lemma settlement_exactly_once_witness :
  Atem.settlers_installed Sample.one_pending /\
  exists this1,
    Atem._resolveCommand 1 Sample.one_pending = Ok this1 /\
    Atem._sentQueue this1 = ∅ /\
    Atem.promises this1 = [Atem.Fulfilled (Atem.VCommand 0)] /\
    Atem._resolveCommand 1 this1 = Ok this1 /\
    Atem._rejectCommand 1 this1 = Ok this1.
Proof.
  assert (H : Atem.settlers_installed Sample.one_pending).
  { apply (settlers_installed_sendCommand Sample.one_made 0); [cbn; lia|].
    apply settlers_installed_new_command, settlers_installed_new. }
  split; [exact H|].
  destruct (settlement_exactly_once Sample.one_pending 1 H)
    as (this1 & this2 & E1 & _ & _ & _ & _ & _ & _ & _ & _ & R1 & R2 & _).
  exists this1. injection E1 as <-.
  split; [reflexivity|]. split; [reflexivity|]. split; [reflexivity|].
  split; [exact R1 | exact R2].
Defined.

Lemma sendCommand_settles_with_command_witness :
  (0 < length (Atem.commands Sample.one_made))%nat /\
  Atem.registered Sample.one_pending 1 0 0 /\
  exists resolved rejected,
    Atem._resolveCommand 1 Sample.one_pending = Ok resolved /\
    Atem.promises resolved !! 0%nat
      = Some (Atem.Fulfilled (Atem.VCommand 0)) /\
    Atem._rejectCommand 1 Sample.one_pending = Ok rejected /\
    Atem.promises rejected !! 0%nat = Some (Atem.Rejected (Atem.VCommand 0)).
Proof.
  assert (H : (0 < length (Atem.commands Sample.one_made))%nat)
    by (cbn; lia).
  split; [exact H|].
  pose proof (sendCommand_settles_with_command Sample.one_made 0%nat H) as T.
  cbv zeta in T. destruct T as [Hreg Hlater].
  split; [exact Hreg|]. exact (Hlater Sample.one_pending Hreg).
Defined.

(** C4 as the claim has it fails: the send of the pending command failed,
    so its promise is settled (rejected with the socket's error) while its
    identifier is still in the sent-queue; the acknowledgment of that
    identifier then changes the sent-queue. *)
Lemma settled_by_failed_send_still_queued :
  Atem.promises (Atem.sendCommand_catch 0 "socket closed" Sample.one_pending)
  = [Atem.Rejected (Atem.VError "socket closed")] /\
  Atem._sentQueue (Atem.sendCommand_catch 0 "socket closed" Sample.one_pending)
    !! 1 = Some 0%nat /\
  exists this1,
    Atem._resolveCommand 1
      (Atem.sendCommand_catch 0 "socket closed" Sample.one_pending)
    = Ok this1 /\
    Atem._sentQueue this1 !! 1 = None /\
    Atem._sentQueue this1
    ≠ Atem._sentQueue
        (Atem.sendCommand_catch 0 "socket closed" Sample.one_pending).
Proof.
  split; [reflexivity|]. split; [reflexivity|].
  eexists. split; [reflexivity|]. split; [reflexivity|].
  intros H.
  assert (E : Atem._sentQueue
                (Atem.sendCommand_catch 0 "socket closed" Sample.one_pending)
                !! 1 = Some 0%nat) by reflexivity.
  rewrite <- H in E. discriminate E.
Qed.

(** C9 as the claim has it fails, in two ways. When the hand-over to the
    socket fails, the promise [sendCommand] returned is rejected with the
    socket's error, not with the command. And when the same command object
    is sent again before its first acknowledgment, that acknowledgment
    (identifier 1) fulfils the promise of the second send and leaves the
    promise of the first send pending. *)
Lemma promise_not_settled_with_command :
  (Atem.sendCommand 0 Sample.one_made).1 = 0%nat /\
  Atem.promises
    (Atem.sendCommand_catch 0 "socket closed"
       (Atem.sendCommand 0 Sample.one_made).2) !! 0%nat
  = Some (Atem.Rejected (Atem.VError "socket closed")) /\
  (Atem.sendCommand 0 Sample.one_pending).1 = 1%nat /\
  exists this1,
    Atem._resolveCommand 1 (Atem.sendCommand 0 Sample.one_pending).2
    = Ok this1 /\
    Atem.promises this1
    = [Atem.Pending; Atem.Fulfilled (Atem.VCommand 0)].
Proof.
  split; [reflexivity|]. split; [reflexivity|]. split; [reflexivity|].
  eexists. split; reflexivity.
Qed.

(** C6 as the claim has it fails: with one command pending, the disconnect
    event leaves it in the sent-queue and leaves its promise pending. *)
Lemma disconnect_keeps_command_pending :
  ~ (Atem._sentQueue (Atem.on_disconnect Sample.one_pending) = ∅) /\
  Atem._sentQueue (Atem.on_disconnect Sample.one_pending) !! 1 = Some 0%nat /\
  Atem.promises (Atem.on_disconnect Sample.one_pending) = [Atem.Pending].
Proof.
  assert (E : Atem._sentQueue (Atem.on_disconnect Sample.one_pending) !! 1
              = Some 0%nat) by (vm_compute; reflexivity).
  split; [|split; [exact E | reflexivity]].
  intros H. rewrite H in E. discriminate.
Qed.

Lemma settlers_installed_reachable_witness :
  rtc (Atem.step Sample.DataTransferCommands Sample.handleCommand)
    Sample.atem0 Sample.one_pending /\
  Atem.settlers_installed Sample.one_pending.
Proof.
  split; [exact one_pending_reachable|].
  exact (settlers_installed_reachable
           Sample.DataTransferCommands Sample.handleCommand
           Sample.state0 Sample.socket0
           Sample.one_pending one_pending_reachable).
Defined.

Lemma settled_stays_witness :
  Atem.promises Sample.acknowledged !! 0%nat
    = Some (Atem.Fulfilled (Atem.VCommand 0)) /\
  Atem.promises
    (Atem.sendCommand_catch 0 "socket closed"
       (Atem.on_disconnect Sample.acknowledged)) !! 0%nat
    = Some (Atem.Fulfilled (Atem.VCommand 0)).
Proof.
  assert (H : Atem.promises Sample.acknowledged !! 0%nat
              = Some (Atem.Fulfilled (Atem.VCommand 0))) by reflexivity.
  split; [exact H|].
  apply (settled_stays Sample.DataTransferCommands Sample.handleCommand
           Sample.acknowledged
           (Atem.sendCommand_catch 0 "socket closed"
              (Atem.on_disconnect Sample.acknowledged))
           0%nat (Atem.Fulfilled (Atem.VCommand 0))).
  - apply rtc_l with (Atem.on_disconnect Sample.acknowledged);
      [apply Atem.step_disconnect|].
    apply rtc_once, Atem.step_send_failed.
  - exact H.
  - discriminate.
Defined.

(** One object, two sends: [command.resolve] is overwritten by the second
    send, so both acknowledgments go to the second promise and the first
    promise stays pending with nothing left in the queue to settle it. *)
Example same_object_sent_twice :
  Atem.promises Sample.sent_twice_acknowledged
  = [Atem.Pending; Atem.Fulfilled (Atem.VCommand 0)] /\
  Atem._sentQueue Sample.sent_twice_acknowledged = ∅.
Proof. split; reflexivity. Qed.

(** The gate on the sample object, whose apiVersion is 0: below a V8_0 of 1
    the legacy command goes out, at a V8_0 of 0 the V8 command does. *)
Example setSuperSourceProperties_sample :
  Atem.constructor_name
    <$> Atem.commands (Atem.setSuperSourceProperties 1 tt 5 Sample.atem0).2 !! 0%nat
  = Some "SuperSourcePropertiesCommand" /\
  (fun c => (Atem.constructor_name c, Atem.ssrcId c))
    <$> Atem.commands (Atem.setSuperSourceProperties 0 tt 5 Sample.atem0).2 !! 0%nat
  = Some ("SuperSourcePropertiesV8Command", Some 5).
Proof. split; reflexivity. Qed.

(** * More on the setter: when it serializes, and to what *)

Lemma writeUIntBE_Ok_range n buf v off buf' :
  Buffer.writeUIntBE n buf v off = Ok buf' ->
  0 <= v <= 2 ^ (8 * Z.of_nat n) - 1.
Proof.
  unfold Buffer.writeUIntBE.
  destruct (Z.leb_spec 0 v), (Z.leb_spec v (2 ^ (8 * Z.of_nat n) - 1));
    cbn [andb]; try discriminate. lia.
Qed.

Lemma writeIntBE_Ok_range n buf v off buf' :
  Buffer.writeIntBE n buf v off = Ok buf' ->
  - 2 ^ (8 * Z.of_nat n - 1) <= v <= 2 ^ (8 * Z.of_nat n - 1) - 1.
Proof.
  unfold Buffer.writeIntBE.
  destruct (Z.leb_spec (- 2 ^ (8 * Z.of_nat n - 1)) v),
           (Z.leb_spec v (2 ^ (8 * Z.of_nat n - 1) - 1));
    cbn [andb]; try discriminate. lia.
Qed.

Ltac setter_fields :=
  cbn [MixEffectKeyDVECommand.flag MixEffectKeyDVECommand.mixEffect
       MixEffectKeyDVECommand.upstreamKeyerId MixEffectKeyDVECommand.properties];
  settings_fields.

Ltac setter_fields_everywhere :=
  cbn [MixEffectKeyDVECommand.flag MixEffectKeyDVECommand.mixEffect
       MixEffectKeyDVECommand.upstreamKeyerId MixEffectKeyDVECommand.properties
       sizeX sizeY positionX positionY rotation borderEnabled shadowEnabled
       borderBevel borderOuterWidth borderInnerWidth borderOuterSoftness
       borderInnerSoftness borderBevelSoftness borderBevelPosition
       borderOpacity borderHue borderSaturation borderLuma
       lightSourceDirection lightSourceAltitude maskEnabled maskTop
       maskBottom maskLeft maskRight rate] in *.

Ltac unfold_writes_in H :=
  unfold Buffer.writeUInt8, Buffer.writeUInt16BE, Buffer.writeUInt32BE,
    Buffer.writeInt32BE in H.

(** The writes of a command that fits the wire, run one after the other. *)
Lemma serialize_fits (cmd : MixEffectKeyDVECommand.t) :
  fits_wire cmd -> MixEffectKeyDVECommand.serialize cmd = Ok (wire_bytes cmd).
Proof.
  destruct cmd as [flag m k [sX sY pX pY rot bE sE bB bOW bIW bOS bIS bBS bBP
                             bO bH bS bL lD lA mE mT mB mL mR rt]].
  unfold fits_wire, wire_bytes, MixEffectKeyDVECommand.serialize.
  cbv zeta. setter_fields. intros H.
  unfold Buffer.writeUInt8, Buffer.writeUInt16BE, Buffer.writeUInt32BE,
    Buffer.writeInt32BE.
  repeat (first [ rewrite writeUIntBE_1 by lia | rewrite writeUIntBE_2 by lia
                | rewrite writeUIntBE_4 by lia | rewrite writeIntBE_4 by lia ];
          buffer_compute).
  reflexivity.
Qed.

Lemma serialize_Ok_fits (cmd : MixEffectKeyDVECommand.t) buffer :
  MixEffectKeyDVECommand.serialize cmd = Ok buffer -> fits_wire cmd.
Proof.
  intros H. unfold MixEffectKeyDVECommand.serialize in H. cbv zeta in H.
  unfold_writes_in H.
  repeat match type of H with
  | mbind _ ?m = Ok _ =>
      let E := fresh "E" in
      destruct m eqn:E; cbn [mbind result_bind] in H; [|discriminate H];
      first [apply writeUIntBE_Ok_range in E | apply writeIntBE_Ok_range in E]
  end.
  unfold fits_wire. cbv zeta.
  change (2 ^ (8 * Z.of_nat 1) - 1) with 255 in *.
  change (2 ^ (8 * Z.of_nat 2) - 1) with 65535 in *.
  change (2 ^ (8 * Z.of_nat 4) - 1) with 4294967295 in *.
  change (- 2 ^ (8 * Z.of_nat 4 - 1)) with (-2147483648) in *.
  change (2 ^ (8 * Z.of_nat 4 - 1) - 1) with 2147483647 in *.
  repeat split; lia.
Qed.

(** X3. [serialize] returns a buffer exactly when every field of the command
    fits the width of its write (otherwise it throws), and the buffer it
    returns has 64 bytes. *)
Theorem serialize_returns_iff_fits (cmd : MixEffectKeyDVECommand.t) :
  (fits_wire cmd <->
   exists buffer, MixEffectKeyDVECommand.serialize cmd = Ok buffer) /\
  (forall buffer,
     MixEffectKeyDVECommand.serialize cmd = Ok buffer ->
     length buffer = 64%nat).
Proof.
  split; [split|].
  - intros H. eexists. apply serialize_fits, H.
  - intros [buffer H]. eapply serialize_Ok_fits, H.
  - intros buffer H. pose proof (serialize_Ok_fits _ _ H) as F.
    rewrite (serialize_fits _ F) in H. injection H as <-.
    unfold wire_bytes. cbv zeta. rewrite !length_app, !length_be_bytes.
    reflexivity.
Qed.

(** A command with one field too wide: the write of [rate] throws. *)
Example serialize_rate_too_wide :
  MixEffectKeyDVECommand.serialize
    {| MixEffectKeyDVECommand.flag := 0;
       MixEffectKeyDVECommand.mixEffect := 0;
       MixEffectKeyDVECommand.upstreamKeyerId := 0;
       MixEffectKeyDVECommand.properties := {|
         sizeX := 0; sizeY := 0; positionX := 0; positionY := 0;
         rotation := 0; borderEnabled := false; shadowEnabled := false;
         borderBevel := 0; borderOuterWidth := 0; borderInnerWidth := 0;
         borderOuterSoftness := 0; borderInnerSoftness := 0;
         borderBevelSoftness := 0; borderBevelPosition := 0;
         borderOpacity := 0; borderHue := 0; borderSaturation := 0;
         borderLuma := 0; lightSourceDirection := 0;
         lightSourceAltitude := 0; maskEnabled := false; maskTop := 0;
         maskBottom := 0; maskLeft := 0; maskRight := 0; rate := 256 |} |}
  = Throw ValueOutOfBounds.
Proof. vm_compute. reflexivity. Qed.

(** X4. The layout: the buffer [serialize] returns for a command that fits
    the wire is the flag word, mixEffect, upstreamKeyerId, two zero bytes,
    then the properties in the order of the layout, each in the width and
    byte order of its write, with a zero byte after the bevel and after the
    opacity and three zero bytes at the end. *)
Theorem serialize_layout (cmd : MixEffectKeyDVECommand.t) :
  fits_wire cmd ->
  MixEffectKeyDVECommand.serialize cmd = Ok (wire_bytes cmd).
Proof. exact (serialize_fits cmd). Qed.

Lemma serialize_layout_witness :
  fits_wire Sample.setter /\
  MixEffectKeyDVECommand.serialize Sample.setter
  = Ok (wire_bytes Sample.setter).
Proof.
  assert (H : fits_wire Sample.setter) by (unfold fits_wire; cbn; lia).
  split; [exact H|]. exact (serialize_layout Sample.setter H).
Defined.

Lemma be_bytes_inj_u8 a b : 0 <= a <= 255 -> 0 <= b <= 255 ->
  Buffer.be_bytes 1 a = Buffer.be_bytes 1 b -> a = b.
Proof.
  intros Ha Hb E. apply (f_equal Buffer.be_value) in E.
  rewrite !read_u8 in E by lia. exact E.
Qed.

Lemma be_bytes_inj_u16 a b : 0 <= a <= 65535 -> 0 <= b <= 65535 ->
  Buffer.be_bytes 2 a = Buffer.be_bytes 2 b -> a = b.
Proof.
  intros Ha Hb E. apply (f_equal Buffer.be_value) in E.
  rewrite !read_u16 in E by lia. exact E.
Qed.

Lemma be_bytes_inj_u32 a b : 0 <= a <= 4294967295 -> 0 <= b <= 4294967295 ->
  Buffer.be_bytes 4 a = Buffer.be_bytes 4 b -> a = b.
Proof.
  intros Ha Hb E. apply (f_equal Buffer.be_value) in E.
  rewrite !read_u32 in E by lia. exact E.
Qed.

Lemma be_bytes_inj_i32 a b :
  -2147483648 <= a <= 2147483647 -> -2147483648 <= b <= 2147483647 ->
  Buffer.be_bytes 4 a = Buffer.be_bytes 4 b -> a = b.
Proof.
  intros Ha Hb E.
  apply (f_equal (fun bs =>
           Buffer.to_signed (8 * Z.of_nat 4) (Buffer.be_value bs))) in E.
  rewrite !read_i32 in E by lia. exact E.
Qed.

Lemma flag_byte_inj (a b : bool) :
  Buffer.byte_of (if a then 1 else 0) = Buffer.byte_of (if b then 1 else 0) ->
  a = b.
Proof.
  destruct a, b; intros E; try reflexivity; vm_compute in E; discriminate E.
Qed.

(** Split an equation between two layouts at its first field. *)
Ltac split_field H E :=
  apply app_inj_1 in H as [E H];
  [|first [rewrite !length_be_bytes; reflexivity | reflexivity]].

(** X5. [serialize] loses nothing: two commands that serialize to the same
    buffer are the same command, flag word, identifiers and every property
    included. *)
Theorem serialize_injective (cmd1 cmd2 : MixEffectKeyDVECommand.t) buffer :
  MixEffectKeyDVECommand.serialize cmd1 = Ok buffer ->
  MixEffectKeyDVECommand.serialize cmd2 = Ok buffer ->
  cmd1 = cmd2.
Proof.
  intros H1 H2.
  pose proof (serialize_Ok_fits _ _ H1) as F1.
  pose proof (serialize_Ok_fits _ _ H2) as F2.
  rewrite (serialize_fits _ F1) in H1. rewrite (serialize_fits _ F2) in H2.
  assert (H : wire_bytes cmd1 = wire_bytes cmd2) by congruence.
  clear H1 H2 buffer.
  destruct cmd1 as [flag m k [sX sY pX pY rot bE sE bB bOW bIW bOS bIS bBS bBP
                              bO bH bS bL lD lA mE mT mB mL mR rt]].
  destruct cmd2 as [flag' m' k' [sX' sY' pX' pY' rot' bE' sE' bB' bOW' bIW' bOS'
                                 bIS' bBS' bBP' bO' bH' bS' bL' lD' lA' mE' mT'
                                 mB' mL' mR' rt']].
  unfold fits_wire in F1, F2. unfold wire_bytes in H.
  cbv zeta in *. setter_fields_everywhere.
  split_field H Eflag. split_field H Em. split_field H Ek. split_field H Epad1.
  split_field H EsX. split_field H EsY. split_field H EpX. split_field H EpY.
  split_field H Erot. split_field H Eflags. split_field H EbB.
  split_field H Epad2.
  split_field H EbOW. split_field H EbIW. split_field H EbOS.
  split_field H EbIS.
  split_field H EbBS. split_field H EbBP. split_field H EbO.
  split_field H Epad3.
  split_field H EbH. split_field H EbS. split_field H EbL. split_field H ElD.
  split_field H ElA. split_field H EmE. split_field H EmT. split_field H EmB.
  split_field H EmL. split_field H EmR. split_field H Ert.
  injection Eflags as EbE EsE. injection EmE as EmE.
  apply flag_byte_inj in EbE, EsE, EmE.
  apply be_bytes_inj_u32 in Eflag, EsX, EsY; try lia.
  apply be_bytes_inj_i32 in EpX, EpY, Erot; try lia.
  apply be_bytes_inj_u16 in EbOW, EbIW, EbH, EbS, EbL, ElD, EmT, EmB, EmL, EmR;
    try lia.
  apply be_bytes_inj_u8 in Em, Ek, EbB, EbOS, EbIS, EbBS, EbBP, EbO, ElA, Ert;
    try lia.
  subst. reflexivity.
Qed.

Lemma serialize_injective_witness :
  MixEffectKeyDVECommand.serialize Sample.setter
  = MixEffectKeyDVECommand.serialize
      {| MixEffectKeyDVECommand.flag := 67108863;
         MixEffectKeyDVECommand.mixEffect := 3;
         MixEffectKeyDVECommand.upstreamKeyerId := 1;
         MixEffectKeyDVECommand.properties := Sample.settings |} /\
  Sample.setter
  = {| MixEffectKeyDVECommand.flag := 67108863;
       MixEffectKeyDVECommand.mixEffect := 3;
       MixEffectKeyDVECommand.upstreamKeyerId := 1;
       MixEffectKeyDVECommand.properties := Sample.settings |}.
Proof.
  split; [reflexivity|].
  apply (serialize_injective _ _ (wire_bytes Sample.setter));
    vm_compute; reflexivity.
Defined.

Lemma read_i8_wide v : 0 <= v <= 255 ->
  Buffer.to_signed (8 * Z.of_nat 1) (Buffer.be_value (Buffer.be_bytes 1 v))
  = as_int8 v.
Proof. intros. rewrite read_u8 by lia. reflexivity. Qed.

(** X6. The setter writes the four softness fields and the opacity with
    [writeUInt8] and the notifier reads them with [readInt8]: of the buffer
    of any command that serializes, taken from offset 4 on, the notifier's
    five reads give the written number up to 127 and the written number
    minus 256 from 128 on. *)
Theorem softness_read_back_signed (cmd : MixEffectKeyDVECommand.t) buffer :
  MixEffectKeyDVECommand.serialize cmd = Ok buffer ->
  let p := MixEffectKeyDVECommand.properties cmd in
  let rawCommand := drop 4 buffer in
  Buffer.readInt8 rawCommand 32 = Ok (as_int8 (borderOuterSoftness p)) /\
  Buffer.readInt8 rawCommand 33 = Ok (as_int8 (borderInnerSoftness p)) /\
  Buffer.readInt8 rawCommand 34 = Ok (as_int8 (borderBevelSoftness p)) /\
  Buffer.readInt8 rawCommand 35 = Ok (as_int8 (borderBevelPosition p)) /\
  Buffer.readInt8 rawCommand 36 = Ok (as_int8 (borderOpacity p)).
Proof.
  intros H. pose proof (serialize_Ok_fits _ _ H) as F.
  rewrite (serialize_fits _ F) in H. injection H as <-.
  destruct cmd as [flag m k [sX sY pX pY rot bE sE bB bOW bIW bOS bIS bBS bBP
                             bO bH bS bL lD lA mE mT mB mL mR rt]].
  unfold fits_wire in F. unfold wire_bytes, Buffer.readInt8. cbv zeta in *.
  setter_fields_everywhere.
  buffer_compute. fold_be_bytes.
  rewrite !read_i8_wide by lia. repeat split.
Qed.

Lemma softness_read_back_signed_witness :
  exists buffer,
    MixEffectKeyDVECommand.serialize Sample.wide_softness = Ok buffer /\
    Buffer.readInt8 (drop 4 buffer) 32 = Ok (-56) /\
    Buffer.readInt8 (drop 4 buffer) 33 = Ok 100 /\
    Buffer.readInt8 (drop 4 buffer) 36 = Ok (-128).
Proof.
  exists (wire_bytes Sample.wide_softness).
  assert (H : MixEffectKeyDVECommand.serialize Sample.wide_softness
              = Ok (wire_bytes Sample.wide_softness))
    by (vm_compute; reflexivity).
  split; [exact H|].
  pose proof (softness_read_back_signed Sample.wide_softness _ H) as T.
  cbv zeta in T. destruct T as (T1 & T2 & _ & _ & T5).
  split; [exact T1|]. split; [exact T2 | exact T5].
Defined.

(** * More on the notifier: what of the payload it reads *)

(** X7. A payload of fewer than 57 bytes never decodes: [deserialize]
    throws. *)
Theorem deserialize_short_payload_throws
  (BorderBevel : list Z) (rawCommand : list byte) :
  (length rawCommand < 57)%nat ->
  exists e,
    MixEffectKeyDVEUpdateCommand.deserialize BorderBevel rawCommand = Throw e.
Proof.
  intros Hlen.
  destruct (MixEffectKeyDVEUpdateCommand.deserialize BorderBevel rawCommand)
    as [cmd|e] eqn:H; [exfalso|eauto].
  unfold MixEffectKeyDVEUpdateCommand.deserialize in H. peel H.
  match goal with
  | E : Buffer.readUInt8 rawCommand 56 = Ok _ |- _ =>
      apply readUIntBE_Ok_length in E; lia
  end.
Qed.

Lemma deserialize_short_payload_throws_witness :
  exists e,
    MixEffectKeyDVEUpdateCommand.deserialize Sample.BorderBevel
      (take 56 Sample.out_of_range) = Throw e.
Proof.
  apply (deserialize_short_payload_throws Sample.BorderBevel
           (take 56 Sample.out_of_range)).
  vm_compute. lia.
Defined.

(** X8. The notifier reads bytes 0-1, 4-26, 28-36 and 38-56 and no other:
    two payloads of at least 57 bytes that agree on these decode alike,
    whatever they hold at bytes 2, 3, 27 and 37 and from byte 57 on. *)
Theorem deserialize_ignores_unread_bytes
  (BorderBevel : list Z) (raw raw' : list byte) :
  (57 <= length raw)%nat -> (57 <= length raw')%nat ->
  take 2 raw = take 2 raw' ->
  take 23 (drop 4 raw) = take 23 (drop 4 raw') ->
  take 9 (drop 28 raw) = take 9 (drop 28 raw') ->
  take 19 (drop 38 raw) = take 19 (drop 38 raw') ->
  MixEffectKeyDVEUpdateCommand.deserialize BorderBevel raw
  = MixEffectKeyDVEUpdateCommand.deserialize BorderBevel raw'.
Proof.
  intros Hlen Hlen' H1 H2 H3 H4.
  split_buffer raw Hlen. split_buffer raw' Hlen'.
  cbn [take drop firstn skipn] in H1, H2, H3, H4.
  injection H1 as -> ->.
  injection H2
    as -> -> -> -> -> -> -> -> -> -> -> -> -> -> -> -> -> -> -> -> -> -> ->.
  injection H3 as -> -> -> -> -> -> -> -> ->.
  injection H4 as -> -> -> -> -> -> -> -> -> -> -> -> -> -> -> -> -> -> ->.
  decode_all. reflexivity.
Qed.

Lemma deserialize_ignores_unread_bytes_witness :
  Sample.out_of_range <> Sample.out_of_range_padded /\
  MixEffectKeyDVEUpdateCommand.deserialize
    Sample.BorderBevel Sample.out_of_range
  = MixEffectKeyDVEUpdateCommand.deserialize
      Sample.BorderBevel Sample.out_of_range_padded.
Proof.
  split; [vm_compute; discriminate|].
  apply (deserialize_ignores_unread_bytes Sample.BorderBevel
           Sample.out_of_range Sample.out_of_range_padded);
    first [reflexivity | vm_compute; lia].
Defined.

(** * The mask flags *)

Lemma MaskFlags_bit (i : nat) (entry : string * Z) :
  MixEffectKeyDVECommand.MaskFlags !! i = Some entry ->
  (i < 26)%nat /\ entry.2 = 2 ^ Z.of_nat i.
Proof.
  intros H. assert (Hi : (i < 26)%nat) by (apply lookup_lt_Some in H; exact H).
  split; [exact Hi|].
  do 26 (destruct i as [|i]; [injection H as <-; reflexivity|]).
  lia.
Qed.

Lemma lor_below (n a b : Z) : 0 <= n ->
  0 <= a < 2 ^ n -> 0 <= b < 2 ^ n -> 0 <= Z.lor a b < 2 ^ n.
Proof.
  intros Hn Ha Hb.
  destruct (Z.eq_dec a 0) as [->|Ha0]; [rewrite Z.lor_0_l; exact Hb|].
  destruct (Z.eq_dec b 0) as [->|Hb0]; [rewrite Z.lor_0_r; exact Ha|].
  assert (H0 : 0 <= Z.lor a b) by (apply Z.lor_nonneg; lia).
  split; [exact H0|].
  assert (Hne : Z.lor a b <> 0).
  { intros E. apply Z.lor_eq_0_iff in E. lia. }
  apply Z.log2_lt_pow2; [lia|].
  rewrite Z.log2_lor by lia.
  apply Z.max_lub_lt; apply Z.log2_lt_pow2; lia.
Qed.

Lemma land_pow2 (w i : Z) : 0 <= i ->
  Z.land w (2 ^ i) <> 0 <-> Z.testbit w i = true.
Proof.
  intros Hi. split.
  - intros Hne. destruct (Z.testbit w i) eqn:E; [reflexivity|].
    exfalso. apply Hne. apply Z.bits_inj'. intros n Hn.
    rewrite Z.land_spec, Z.bits_0, Z.pow2_bits_eqb by lia.
    destruct (Z.eqb_spec i n) as [->|_];
      [rewrite E; reflexivity | apply andb_false_r].
  - intros E H. apply (f_equal (fun z => Z.testbit z i)) in H.
    rewrite Z.land_spec, Z.bits_0, Z.pow2_bits_eqb, E, Z.eqb_refl in H by lia.
    discriminate H.
Qed.

Lemma flag_word_testbit (selection : list (string * Z)) (n : Z) :
  Z.testbit (flag_word selection) n = true <->
  exists entry, entry ∈ selection /\ Z.testbit entry.2 n = true.
Proof.
  induction selection as [|e sel IH]; cbn [flag_word foldr].
  - rewrite Z.bits_0. split; [discriminate|].
    intros (entry & Hin & _). inversion Hin.
  - fold (flag_word sel). rewrite Z.lor_spec, orb_true_iff, IH. split.
    + intros [H|(entry & Hin & H)].
      * exists e. split; [left|exact H].
      * exists entry. split; [right; exact Hin|exact H].
    + intros (entry & Hin & H). apply elem_of_cons in Hin as [->|Hin].
      * left. exact H.
      * right. eauto.
Qed.

(** X9. The mask flags are independent bits: the bitwise or of any selection
    of [MaskFlags] entries lies in 0..2^26-1 (so it fits the 32 bits
    [serialize] writes it in), and an entry of the table has its bit set in
    that word exactly when it is in the selection. *)
Theorem MaskFlags_independent_bits (selection : list (string * Z)) :
  selection ⊆ MixEffectKeyDVECommand.MaskFlags ->
  0 <= flag_word selection <= 2 ^ 26 - 1 /\
  forall entry, entry ∈ MixEffectKeyDVECommand.MaskFlags ->
    (Z.land (flag_word selection) entry.2 <> 0 <-> entry ∈ selection).
Proof.
  intros Hsub. split.
  - assert (H : 0 <= flag_word selection < 2 ^ 26); [|lia].
    induction selection as [|e sel IH]; [cbn; lia|].
    cbn [flag_word foldr]. fold (flag_word sel).
    apply lor_below;
      [lia| |apply IH; intros x Hx; apply Hsub; right; exact Hx].
    assert (He : e ∈ MixEffectKeyDVECommand.MaskFlags) by (apply Hsub; left).
    apply list_elem_of_lookup in He as [i Hi].
    apply MaskFlags_bit in Hi as [Hi ->].
    split; [apply Z.pow_nonneg; lia|]. apply Z.pow_lt_mono_r; lia.
  - intros entry Hentry.
    apply list_elem_of_lookup in Hentry as [i Hi].
    pose proof (MaskFlags_bit _ _ Hi) as [Hlt Hval].
    rewrite Hval, land_pow2, flag_word_testbit by lia. split.
    + intros (e & He & Hbit).
      assert (He' : e ∈ MixEffectKeyDVECommand.MaskFlags) by (apply Hsub, He).
      apply list_elem_of_lookup in He' as [j Hj].
      pose proof (MaskFlags_bit _ _ Hj) as [Hjlt Hjval].
      rewrite Hjval, Z.pow2_bits_eqb in Hbit by lia.
      apply Z.eqb_eq in Hbit. apply Nat2Z.inj in Hbit. subst j.
      rewrite Hi in Hj. injection Hj as <-. exact He.
    + intros Hin. exists entry. split; [exact Hin|].
      rewrite Hval, Z.pow2_bits_eqb by lia. apply Z.eqb_refl.
Qed.

Lemma MaskFlags_independent_bits_witness :
  flag_word Sample.selection = 33554433 /\
  (Z.land (flag_word Sample.selection) 33554432 <> 0
   <-> ("rate", 33554432) ∈ Sample.selection) /\
  (Z.land (flag_word Sample.selection) 2 <> 0
   <-> ("sizeY", 2) ∈ Sample.selection).
Proof.
  split; [reflexivity|].
  assert (Hsub : Sample.selection ⊆ MixEffectKeyDVECommand.MaskFlags).
  { apply (bool_decide_unpack _). vm_compute. exact I. }
  destruct (MaskFlags_independent_bits Sample.selection Hsub) as [_ H].
  split.
  - apply (H ("rate", 33554432)).
    apply (bool_decide_unpack _). vm_compute. exact I.
  - apply (H ("sizeY", 2)).
    apply (bool_decide_unpack _). vm_compute. exact I.
Defined.

(** * More on received commands *)

Section Receiving.

Context {Other Props : Type}.
Variable DataTransferCommands : list string.
Variable handleCommand :
  Atem.AbstractCommand Other Props -> Atem.t Other Props -> Atem.t Other Props.
Implicit Types (this : Atem.t Other Props)
  (command : Atem.AbstractCommand Other Props).

Local Abbreviation _mutateState :=
  (Atem._mutateState DataTransferCommands handleCommand).
Local Abbreviation on_receivedStateChange :=
  (Atem.on_receivedStateChange DataTransferCommands handleCommand).

(** X10. What the receivedStateChange listener does for a command that is
    no data transfer command. It emits receivedCommand first, then one
    stateChanged per path [applyToState] returned (one path, or each path of
    an array, in order), every one carrying the state as [applyToState] left
    it; it emits receivedCommand alone, with the state untouched, for a
    command that has no [applyToState]; and it leaves the tracker alone: the
    sent-queue, the command objects and the promises are as they were. *)
Theorem on_receivedStateChange_emits command this :
  Atem.constructor_name command ∉ DataTransferCommands ->
  let after := on_receivedStateChange command this in
  let '(state', paths) :=
    match Atem.applyToState command with
    | Some apply =>
        ((apply (Atem.state this)).1,
         match (apply (Atem.state this)).2 with
         | Atem.PathArray paths => paths
         | Atem.OnePath path => [path]
         end)
    | None => (Atem.state this, [])
    end in
  Atem.state after = state' /\
  Atem.emitted after
  = Atem.emitted this
    ++ Atem.EvReceivedCommand command :: map (Atem.EvStateChanged state') paths /\
  Atem._sentQueue after = Atem._sentQueue this /\
  Atem.commands after = Atem.commands this /\
  Atem.promises after = Atem.promises this.
Proof.
  intros Hname after. subst after.
  pose proof (on_receivedStateChange_tracker DataTransferCommands handleCommand
                command this Hname) as Htr.
  cbv zeta in Htr. unfold Atem.on_receivedStateChange in *.
  destruct (Atem.applyToState command) as [apply|] eqn:Happly.
  - pose proof (_mutateState_emits DataTransferCommands handleCommand command
                  apply (Atem.emit (Atem.EvReceivedCommand command) this)
                  Hname Happly) as [Hs He].
    cbn [Atem.emit Atem.state Atem.emitted] in Hs, He.
    split; [exact Hs|].
    split; [rewrite He, <- app_assoc; reflexivity|exact Htr].
  - split; [|split; [|exact Htr]];
      unfold Atem._mutateState; rewrite Happly;
      rewrite not_a_data_transfer_command by exact Hname; reflexivity.
Qed.

Lemma handled_once command (names : list string) this :
  NoDup names -> Atem.constructor_name command ∈ names ->
  foldl (fun this commandName =>
           if String.eqb (Atem.constructor_name command) commandName
           then handleCommand command this else this) this names
  = handleCommand command this.
Proof.
  revert this. induction names as [|name names IH]; intros this Hnd Hin.
  - inversion Hin.
  - apply NoDup_cons in Hnd as [Hnotin Hnd]. cbn [foldl].
    destruct (String.eqb_spec (Atem.constructor_name command) name) as [E|Hne].
    + apply not_a_data_transfer_command. rewrite E. exact Hnotin.
    + apply IH; [exact Hnd|].
      apply elem_of_cons in Hin as [E|Hin]; [contradiction|exact Hin].
Qed.

(** X11. A data transfer command is handed to the manager once: when the
    command's class is one of the keys of [DataTransferCommands] (keys of
    an object, so without repeats), [_mutateState] is the manager's
    [handleCommand] run once on what [_mutateState] does for a command of no
    data transfer class, that is after [applyToState] and the stateChanged
    events. *)
Theorem data_transfer_command_handled_once command this :
  NoDup DataTransferCommands ->
  Atem.constructor_name command ∈ DataTransferCommands ->
  _mutateState command this
  = handleCommand command (Atem._mutateState [] handleCommand command this).
Proof.
  intros Hnd Hin. unfold Atem._mutateState.
  rewrite handled_once by assumption. reflexivity.
Qed.

End Receiving.

Lemma on_receivedStateChange_emits_witness :
  ("MixEffectKeyDVEUpdateCommand" ∉ Sample.DataTransferCommands) /\
  Atem.emitted
    (Atem.on_receivedStateChange Sample.DataTransferCommands
       Sample.handleCommand
       (MixEffectKeyDVEUpdateCommand_object
          Sample.newMixEffect Sample.newUpstreamKeyer Sample.notifier)
       Sample.atem0)
  = [Atem.EvReceivedCommand
       (MixEffectKeyDVEUpdateCommand_object
          Sample.newMixEffect Sample.newUpstreamKeyer Sample.notifier);
     Atem.EvStateChanged
       (MixEffectKeyDVEUpdateCommand.applyToState
          Sample.newMixEffect Sample.newUpstreamKeyer Sample.notifier
          Sample.state0).1
       "video.ME.2.upstreamKeyers.1.dveSettings"].
Proof.
  assert (H : "MixEffectKeyDVEUpdateCommand" ∉ Sample.DataTransferCommands).
  { apply (bool_decide_unpack _). vm_compute. exact I. }
  split; [exact H|].
  pose proof (on_receivedStateChange_emits Sample.DataTransferCommands
                Sample.handleCommand
                (MixEffectKeyDVEUpdateCommand_object
                   Sample.newMixEffect Sample.newUpstreamKeyer Sample.notifier)
                Sample.atem0 H) as T.
  exact (proj1 (proj2 T)).
Defined.

Lemma data_transfer_command_handled_once_witness :
  Atem.emitted
    (Atem._mutateState Sample.DataTransferCommands Sample.handleCommand_loud
       Sample.lock_obtained Sample.atem0)
  = [Atem.EvError "handled"].
Proof.
  rewrite (data_transfer_command_handled_once Sample.DataTransferCommands
             Sample.handleCommand_loud Sample.lock_obtained Sample.atem0).
  - reflexivity.
  - apply (bool_decide_unpack _). vm_compute. exact I.
  - apply (bool_decide_unpack _). vm_compute. exact I.
Defined.

(** * More on the state synchronizer: how notifiers compose *)

Section Composition.

Context {Other : Type}.
Variable newMixEffect : Z -> State.MixEffect Other.
Variable newUpstreamKeyer : Z -> State.UpstreamKeyer Other.

Local Abbreviation applyToState :=
  (MixEffectKeyDVEUpdateCommand.applyToState newMixEffect newUpstreamKeyer).

(** The tree after [applyToState], in one expression. *)
Lemma applyToState_tree
  (cmd : MixEffectKeyDVEUpdateCommand.t) (state : State.AtemState Other) :
  let m := MixEffectKeyDVEUpdateCommand.mixEffect cmd in
  let k := MixEffectKeyDVEUpdateCommand.upstreamKeyerId cmd in
  let me0 := default (newMixEffect m) (State.ME (State.video state) !! m) in
  let usk0 := default (newUpstreamKeyer k) (State.upstreamKeyers me0 !! k) in
  (applyToState cmd state).1
  = {| State.info := State.info state;
       State.video :=
         {| State.ME :=
              <[m := {| State.upstreamKeyers :=
                          <[k := {| State.dveSettings :=
                                      Some (MixEffectKeyDVEUpdateCommand.properties
                                              cmd);
                                    State.upstreamKeyer_other :=
                                      State.upstreamKeyer_other usk0 |}]>
                            (State.upstreamKeyers me0);
                        State.mixEffect_other := State.mixEffect_other me0 |}]>
                (State.ME (State.video state));
            State.video_other := State.video_other (State.video state) |};
       State.state_other := State.state_other state |}.
Proof.
  intros m k me0 usk0. subst usk0 me0.
  unfold MixEffectKeyDVEUpdateCommand.applyToState, State.getMe,
    State.getUpstreamKeyer. fold m k.
  destruct (State.ME (State.video state) !! m) as [me|] eqn:Eme;
  cbn [default from_option id];
  [destruct (State.upstreamKeyers me !! k) as [usk|] eqn:Eusk
  |destruct (State.upstreamKeyers (newMixEffect m) !! k) as [usk|] eqn:Eusk];
  cbn [default from_option id fst State.ME State.upstreamKeyers
       State.video_other State.mixEffect_other State.upstreamKeyer_other];
  rewrite ?insert_insert_eq; reflexivity.
Qed.

Lemma applyToState_path
  (cmd : MixEffectKeyDVEUpdateCommand.t) (state : State.AtemState Other) :
  (applyToState cmd state).2 = MixEffectKeyDVEUpdateCommand.changePath cmd.
Proof.
  unfold MixEffectKeyDVEUpdateCommand.applyToState.
  destruct (State.getMe _ _ _) as [video1 me].
  destruct (State.getUpstreamKeyer _ _ _) as [me1 usk]. reflexivity.
Qed.

(** X16. The last notifier wins: of two notifiers for the same keyer of the
    same mix effect, applying the second after the first leaves the tree and
    returns the path that applying the second alone does. *)
Theorem applyToState_last_wins
  (cmd1 cmd2 : MixEffectKeyDVEUpdateCommand.t) (state : State.AtemState Other) :
  MixEffectKeyDVEUpdateCommand.mixEffect cmd1
    = MixEffectKeyDVEUpdateCommand.mixEffect cmd2 ->
  MixEffectKeyDVEUpdateCommand.upstreamKeyerId cmd1
    = MixEffectKeyDVEUpdateCommand.upstreamKeyerId cmd2 ->
  applyToState cmd2 (applyToState cmd1 state).1 = applyToState cmd2 state.
Proof.
  intros Hm Hk. apply injective_projections.
  - rewrite !applyToState_tree. cbv zeta. rewrite Hm, Hk.
    cbn [State.info State.video State.ME State.video_other State.state_other].
    rewrite !lookup_insert_eq. cbn [default from_option id].
    cbn [State.upstreamKeyers State.mixEffect_other].
    rewrite !lookup_insert_eq. cbn [default from_option id].
    cbn [State.upstreamKeyer_other].
    rewrite !insert_insert_eq. reflexivity.
  - rewrite !applyToState_path. reflexivity.
Qed.

(** X17. Notifiers for different keyers commute: when two notifiers differ
    in mixEffect or in upstreamKeyerId, applying them in either order leaves
    the same tree, nodes made on the way included. *)
Theorem applyToState_commutes
  (cmd1 cmd2 : MixEffectKeyDVEUpdateCommand.t) (state : State.AtemState Other) :
  (MixEffectKeyDVEUpdateCommand.mixEffect cmd1,
   MixEffectKeyDVEUpdateCommand.upstreamKeyerId cmd1)
  ≠ (MixEffectKeyDVEUpdateCommand.mixEffect cmd2,
     MixEffectKeyDVEUpdateCommand.upstreamKeyerId cmd2) ->
  (applyToState cmd2 (applyToState cmd1 state).1).1
  = (applyToState cmd1 (applyToState cmd2 state).1).1.
Proof.
  intros Hne. rewrite !applyToState_tree. cbv zeta.
  cbn [State.info State.video State.ME State.video_other State.state_other].
  set (m1 := MixEffectKeyDVEUpdateCommand.mixEffect cmd1) in *.
  set (m2 := MixEffectKeyDVEUpdateCommand.mixEffect cmd2) in *.
  set (k1 := MixEffectKeyDVEUpdateCommand.upstreamKeyerId cmd1) in *.
  set (k2 := MixEffectKeyDVEUpdateCommand.upstreamKeyerId cmd2) in *.
  destruct (decide (m1 = m2)) as [Em|Hm].
  - assert (Hk : k1 ≠ k2) by congruence. rewrite <- Em.
    rewrite !lookup_insert_eq. cbn [default from_option id].
    cbn [State.upstreamKeyers State.mixEffect_other].
    rewrite !insert_insert_eq.
    rewrite (lookup_insert_ne _ k1 k2) by exact Hk.
    rewrite (lookup_insert_ne _ k2 k1) by congruence.
    rewrite (insert_insert_ne _ k1 k2) by exact Hk. reflexivity.
  - rewrite (lookup_insert_ne _ m1 m2) by exact Hm.
    rewrite (lookup_insert_ne _ m2 m1) by congruence.
    rewrite (insert_insert_ne _ m1 m2) by exact Hm. reflexivity.
Qed.

End Composition.

Lemma applyToState_last_wins_witness :
  let earlier :=
    {| MixEffectKeyDVEUpdateCommand.mixEffect := 2;
       MixEffectKeyDVEUpdateCommand.upstreamKeyerId := 1;
       MixEffectKeyDVEUpdateCommand.properties :=
         MixEffectKeyDVECommand.properties Sample.wide_softness |} in
  MixEffectKeyDVEUpdateCommand.applyToState
    Sample.newMixEffect Sample.newUpstreamKeyer Sample.notifier
    (MixEffectKeyDVEUpdateCommand.applyToState
       Sample.newMixEffect Sample.newUpstreamKeyer earlier Sample.state0).1
  = MixEffectKeyDVEUpdateCommand.applyToState
      Sample.newMixEffect Sample.newUpstreamKeyer Sample.notifier
      Sample.state0.
Proof.
  intros earlier.
  apply (applyToState_last_wins Sample.newMixEffect Sample.newUpstreamKeyer
           earlier Sample.notifier Sample.state0); reflexivity.
Defined.

Lemma applyToState_commutes_witness :
  (MixEffectKeyDVEUpdateCommand.applyToState
     Sample.newMixEffect Sample.newUpstreamKeyer Sample.notifier_keyer0
     (MixEffectKeyDVEUpdateCommand.applyToState
        Sample.newMixEffect Sample.newUpstreamKeyer Sample.notifier
        Sample.state0).1).1
  = (MixEffectKeyDVEUpdateCommand.applyToState
       Sample.newMixEffect Sample.newUpstreamKeyer Sample.notifier
       (MixEffectKeyDVEUpdateCommand.applyToState
          Sample.newMixEffect Sample.newUpstreamKeyer Sample.notifier_keyer0
          Sample.state0).1).1.
Proof.
  apply (applyToState_commutes Sample.newMixEffect Sample.newUpstreamKeyer
           Sample.notifier Sample.notifier_keyer0 Sample.state0).
  cbn. discriminate.
Defined.

(** * More on the tracker and the builders *)

Section MoreTracker.

Context {Other Props : Type}.
Implicit Types (this : Atem.t Other Props) (ps : list Atem.PromiseState).


Section Builders.

Variable V8_0 : Z.

(** X12. [setSuperSourceBorder] is gated like [setSuperSourceProperties]:
    it sends the new command object, handed to the socket and registered
    under the next tracking identifier, carrying the given properties; from
    V8_0 on it is a SuperSourceBorderCommand with the given ssrcId, below
    V8_0 it is the legacy SuperSourcePropertiesCommand, with no ssrcId, and
    the call does exactly what [setSuperSourceProperties] does with the same
    properties, whatever ssrcId either is given. *)
Theorem setSuperSourceBorder_gating this (newProps : Props) (ssrcId : Z) :
  let apiVersion := State.apiVersion (State.info (Atem.state this)) in
  let sent := (Atem.setSuperSourceBorder V8_0 newProps ssrcId this).2 in
  let trackingId := AtemSocket._nextCommandTrackingId (Atem.socket this) + 1 in
  let command := length (Atem.commands this) in
  last (AtemSocket._queued (Atem.socket sent)) = Some (trackingId, command) /\
  Atem._sentQueue sent !! trackingId = Some command /\
  (exists cmd,
     Atem.commands sent !! command = Some cmd /\
     Atem.updates cmd = [newProps] /\
     (V8_0 <= apiVersion ->
        Atem.constructor_name cmd = "SuperSourceBorderCommand" /\
        Atem.ssrcId cmd = Some ssrcId) /\
     (apiVersion < V8_0 ->
        Atem.constructor_name cmd = "SuperSourcePropertiesCommand" /\
        Atem.ssrcId cmd = None)) /\
  (apiVersion < V8_0 ->
     forall ssrcId' : Z,
       Atem.setSuperSourceBorder V8_0 newProps ssrcId this
       = Atem.setSuperSourceProperties V8_0 newProps ssrcId' this).
Proof.
  intros apiVersion sent trackingId command. subst sent.
  unfold Atem.setSuperSourceBorder, Atem.setSuperSourceProperties.
  fold apiVersion.
  destruct (Z.geb_spec apiVersion V8_0) as [Hv|Hv];
  cbn [Atem.new_command]; rewrite sendCommand_unfold;
  cbn [snd Atem.set_commands Atem.commands Atem.socket Atem._sentQueue
       Atem.promises AtemSocket._queued AtemSocket._nextCommandTrackingId];
  fold trackingId command;
  (split; [apply last_snoc|]); (split; [apply lookup_insert_eq|]);
  (split; [|intros; first [lia | reflexivity]]);
  rewrite !list_lookup_alter_eq, list_lookup_middle by reflexivity;
  (eexists; split; [reflexivity|]); cbn;
  (split; [reflexivity|]); split; intros; first [lia | split; reflexivity].
Qed.


End Builders.

(** X13. Settlement is isolated: when a command is registered under one
    identifier and another identifier is acknowledged or times out, the
    first command stays registered and its promise stays pending, as long as
    the command queued under the other identifier does not carry the settle
    functions of that promise. *)
Theorem settlement_is_isolated this trackingId trackingId' c' p' this1 :
  Atem.registered this trackingId' c' p' ->
  trackingId ≠ trackingId' ->
  (forall c cmd, Atem._sentQueue this !! trackingId = Some c ->
     Atem.commands this !! c = Some cmd ->
     Atem.resolve cmd ≠ Some p' /\ Atem.reject cmd ≠ Some p') ->
  Atem._resolveCommand trackingId this = Ok this1 \/
  Atem._rejectCommand trackingId this = Ok this1 ->
  Atem.registered this1 trackingId' c' p'.
Proof.
  intros (Eq' & Hcmd' & Ep') Hne Hother Hsettle.
  destruct (Atem._sentQueue this !! trackingId) as [c|] eqn:Eq.
  - destruct (Atem.commands this !! c) as [cmd|] eqn:Ec.
    + destruct (Hother c cmd eq_refl Ec) as [Hr Hj].
      destruct Hsettle as [H|H].
      * unfold Atem._resolveCommand in H. rewrite Eq, Ec in H. cbn in H.
        destruct (Atem.resolve cmd) as [p|] eqn:Er; [|discriminate].
        injection H as <-. unfold Atem.registered. cbn.
        rewrite lookup_delete_ne by exact Hne.
        split; [exact Eq'|]. split; [exact Hcmd'|].
        rewrite settle_other by congruence. exact Ep'.
      * unfold Atem._rejectCommand in H. rewrite Eq, Ec in H. cbn in H.
        destruct (Atem.reject cmd) as [p|] eqn:Er; [|discriminate].
        injection H as <-. unfold Atem.registered. cbn.
        rewrite lookup_delete_ne by exact Hne.
        split; [exact Eq'|]. split; [exact Hcmd'|].
        rewrite settle_other by congruence. exact Ep'.
    + destruct Hsettle as [H|H];
        [unfold Atem._resolveCommand in H|unfold Atem._rejectCommand in H];
        rewrite Eq, Ec in H; discriminate H.
  - destruct Hsettle as [H|H];
      [rewrite _resolveCommand_unknown in H by exact Eq
      |rewrite _rejectCommand_unknown in H by exact Eq];
      injection H as <-; repeat split; assumption.
Qed.

Variable DataTransferCommands : list string.
Variable handleCommand :
  Atem.AbstractCommand Other Props -> Atem.t Other Props -> Atem.t Other Props.
Local Abbreviation step := (Atem.step DataTransferCommands handleCommand).

Lemma settle_not_self p s ps p' st :
  p' ≠ p -> ps !! p' = Some st -> Atem.settle p s ps !! p' = Some st.
Proof. intros Hne H. rewrite settle_other by exact Hne. exact H. Qed.

Lemma orphaned_step p this this' :
  step this this' -> orphaned p this -> orphaned p this'.
Proof.
  intros Hstep Horph. pose proof Horph as [Hc Hp].
  assert (Hlt : (p < length (Atem.promises this))%nat).
  { destruct Hp as [Hp|[e Hp]]; eapply lookup_lt_Some, Hp. }
  destruct Hstep as
    [name this|f command this Hf|command this Hcmd|p0 e this
    |trackingId this this' H|trackingId this this' H|command this Hname
    |e this|this|this]; try exact Horph.
  - split; [|exact Hp]. cbn. intros c cmd E.
    apply lookup_app_Some in E as [E|[_ E]]; [eapply Hc, E|].
    apply list_lookup_singleton_Some in E as [_ <-]. cbn. split; discriminate.
  - split; [|exact Hp]. cbn. intros c cmd E.
    destruct (decide (command = c)) as [->|Hne].
    + rewrite list_lookup_alter_eq in E.
      destruct (Atem.commands this !! c) as [cmd0|] eqn:E0; [|discriminate].
      injection E as <-. destruct (Hf cmd0) as [-> ->]. eapply Hc, E0.
    + rewrite list_lookup_alter_ne in E by exact Hne. eapply Hc, E.
  - rewrite sendCommand_unfold. cbn [snd]. split; cbn.
    + intros c cmd E. destruct (decide (command = c)) as [->|Hne].
      * rewrite list_lookup_alter_eq in E.
        destruct (Atem.commands this !! c) as [cmd0|] eqn:E0; [|discriminate].
        injection E as <-. cbn. split; intros [= E]; lia.
      * rewrite list_lookup_alter_ne in E by exact Hne. eapply Hc, E.
    + destruct Hp as [Hp|[e Hp]]; [left|right; exists e];
        apply lookup_app_l_Some, Hp.
  - unfold Atem.sendCommand_catch. split; [exact Hc|]. cbn.
    destruct (decide (p0 = p)) as [->|Hne].
    + destruct Hp as [Hp|[e' Hp]].
      * right. exists e. apply settle_pending, Hp.
      * right. exists e'. apply settle_settled; [exact Hp|discriminate].
    + destruct Hp as [Hp|[e' Hp]]; [left|right; exists e'];
        apply settle_not_self; auto.
  - revert H. unfold Atem.on_CommandAcknowledged, Atem._resolveCommand.
    destruct (Atem._sentQueue this !! trackingId) as [c|];
      [|intros [= <-]; exact Horph].
    destruct (Atem.commands this !! c) as [cmd|] eqn:Ec; [|discriminate].
    cbn. destruct (Atem.resolve cmd) as [p0|] eqn:Er; [|discriminate].
    intros [= <-]. split; [exact Hc|]. cbn.
    assert (Hne : p ≠ p0) by (destruct (Hc c cmd Ec); congruence).
    destruct Hp as [Hp|[e' Hp]]; [left|right; exists e'];
      apply settle_not_self; auto.
  - revert H. unfold Atem.on_CommandTimeout, Atem._rejectCommand.
    destruct (Atem._sentQueue this !! trackingId) as [c|];
      [|intros [= <-]; exact Horph].
    destruct (Atem.commands this !! c) as [cmd|] eqn:Ec; [|discriminate].
    cbn. destruct (Atem.reject cmd) as [p0|] eqn:Er; [|discriminate].
    intros [= <-]. split; [exact Hc|]. cbn.
    assert (Hne : p ≠ p0) by (destruct (Hc c cmd Ec); congruence).
    destruct Hp as [Hp|[e' Hp]]; [left|right; exists e'];
      apply settle_not_self; auto.
  - destruct (on_receivedStateChange_tracker DataTransferCommands
                handleCommand command this Hname) as (_ & Ecs & Eps).
    unfold orphaned. rewrite Ecs, Eps. exact Horph.
Qed.

(** X14. Sending a command object that is still pending orphans its first
    promise: [sendCommand] overwrites the object's settle functions, so when
    no other command object carries those of the first promise, no run of
    calls and socket events after the second send fulfils that promise or
    rejects it with a command; it stays pending, unless its own send fails
    and rejects it with the socket's error. *)
Theorem resent_command_orphans_promise this trackingId command p final :
  Atem.registered this trackingId command p ->
  (forall c cmd, c ≠ command -> Atem.commands this !! c = Some cmd ->
     Atem.resolve cmd ≠ Some p /\ Atem.reject cmd ≠ Some p) ->
  rtc step (Atem.sendCommand command this).2 final ->
  Atem.promises final !! p = Some Atem.Pending \/
  exists e, Atem.promises final !! p = Some (Atem.Rejected (Atem.VError e)).
Proof.
  intros (Eq & (cmd & Ec & Er & Ej) & Ep) Hother Hrun.
  assert (Hstart : orphaned p (Atem.sendCommand command this).2).
  { assert (Hlt : (p < length (Atem.promises this))%nat)
      by (eapply lookup_lt_Some, Ep).
    rewrite sendCommand_unfold. split; cbn.
    - intros c cmd' E. destruct (decide (command = c)) as [->|Hne].
      + rewrite list_lookup_alter_eq, Ec in E. injection E as <-. cbn.
        split; intros [= E]; lia.
      + rewrite list_lookup_alter_ne in E by exact Hne.
        eapply Hother; [|exact E]. congruence.
    - left. apply lookup_app_l_Some, Ep. }
  assert (Hend : orphaned p final).
  { clear -Hrun Hstart. induction Hrun as [|a b c Hab Hbc IH]; [exact Hstart|].
    apply IH. eapply orphaned_step; eassumption. }
  apply Hend.
Qed.

(** X15. The state tree changes only when a command is received: every
    other call or socket event (a new command object, an assignment to it,
    [sendCommand], a failed send, an acknowledgment, a timeout, error,
    connect, disconnect) leaves [state] as it was; a step that changes it is
    the receivedStateChange of a command that has an [applyToState]. *)
Theorem state_changes_only_on_received this this' :
  step this this' ->
  Atem.state this' = Atem.state this \/
  exists command,
    (Atem.constructor_name command ∉ DataTransferCommands) /\
    is_Some (Atem.applyToState command) /\
    this' = Atem.on_receivedStateChange DataTransferCommands handleCommand
              command this.
Proof.
  intros Hstep. destruct Hstep as
    [name this|f command this Hf|command this Hcmd|p0 e this
    |trackingId this this' H|trackingId this this' H|command this Hname
    |e this|this|this]; try (left; reflexivity).
  - left. revert H. unfold Atem.on_CommandAcknowledged, Atem._resolveCommand.
    destruct (Atem._sentQueue this !! trackingId) as [c|];
      [|intros [= <-]; reflexivity].
    destruct (_ ≫= _); [|discriminate]. intros [= <-]. reflexivity.
  - left. revert H. unfold Atem.on_CommandTimeout, Atem._rejectCommand.
    destruct (Atem._sentQueue this !! trackingId) as [c|];
      [|intros [= <-]; reflexivity].
    destruct (_ ≫= _); [|discriminate]. intros [= <-]. reflexivity.
  - destruct (Atem.applyToState command) as [apply|] eqn:Happly.
    + right. exists command. rewrite Happly. eauto.
    + left. unfold Atem.on_receivedStateChange, Atem._mutateState.
      rewrite Happly. rewrite not_a_data_transfer_command by exact Hname.
      reflexivity.
Qed.

End MoreTracker.

Lemma settlement_is_isolated_witness :
  Atem.registered Sample.two_pending 2 1 1 /\
  exists this1,
    Atem._resolveCommand 1 Sample.two_pending = Ok this1 /\
    Atem.promises this1
    = [Atem.Fulfilled (Atem.VCommand 0); Atem.Pending] /\
    Atem.registered this1 2 1 1.
Proof.
  assert (H : Atem.registered Sample.two_pending 2 1 1).
  { split; [reflexivity|]. split; [|reflexivity].
    eexists. split; [reflexivity|]. split; reflexivity. }
  split; [exact H|].
  eexists. split; [reflexivity|]. split; [reflexivity|].
  eapply (settlement_is_isolated Sample.two_pending 1 2 1%nat 1%nat).
  - exact H.
  - discriminate.
  - intros c cmd Hq Hc. vm_compute in Hq. injection Hq as <-.
    vm_compute in Hc. injection Hc as <-. split; discriminate.
  - left. reflexivity.
Defined.

Lemma resent_command_orphans_promise_witness :
  Atem.registered Sample.one_pending 1 0 0 /\
  rtc (Atem.step Sample.DataTransferCommands Sample.handleCommand)
    (Atem.sendCommand 0 Sample.one_pending).2
    Sample.sent_twice_acknowledged /\
  (Atem.promises Sample.sent_twice_acknowledged !! 0%nat = Some Atem.Pending \/
   exists e,
     Atem.promises Sample.sent_twice_acknowledged !! 0%nat
     = Some (Atem.Rejected (Atem.VError e))).
Proof.
  assert (H : Atem.registered Sample.one_pending 1 0 0).
  { split; [reflexivity|]. split; [|reflexivity].
    eexists. split; [reflexivity|]. split; reflexivity. }
  assert (R : rtc (Atem.step Sample.DataTransferCommands Sample.handleCommand)
                (Atem.sendCommand 0 Sample.one_pending).2
                Sample.sent_twice_acknowledged).
  { eapply rtc_l; [eapply (Atem.step_acknowledged _ _ 1); reflexivity|].
    apply rtc_once. eapply (Atem.step_acknowledged _ _ 2).
    vm_compute. reflexivity. }
  split; [exact H|]. split; [exact R|].
  apply (resent_command_orphans_promise
           Sample.DataTransferCommands Sample.handleCommand
           Sample.one_pending 1 0%nat 0%nat Sample.sent_twice_acknowledged H);
    [|exact R].
  intros c cmd Hc E. destruct c as [|c]; [contradiction|].
  vm_compute in E. destruct c; discriminate E.
Defined.

Lemma state_changes_only_on_received_witness :
  Atem.state (Atem.sendCommand 0 Sample.one_made).2 = Atem.state Sample.one_made \/
  exists command,
    (Atem.constructor_name command ∉ Sample.DataTransferCommands) /\
    is_Some (Atem.applyToState command) /\
    (Atem.sendCommand 0 Sample.one_made).2
    = Atem.on_receivedStateChange Sample.DataTransferCommands
        Sample.handleCommand command Sample.one_made.
Proof.
  apply (state_changes_only_on_received
           Sample.DataTransferCommands Sample.handleCommand).
  apply Atem.step_sendCommand. cbn. lia.
Defined.
